(** * AI Plant Doc backend ([app.py]): a shallow embedding and its properties

    The Flask application is embedded view by view.  Each view is a
    computation in a state-and-exception monad over the process state (the
    user collection, the upload directory, the trained model, the signing
    secret); an exception that escapes a view is what Flask answers with a
    500.

    Modelling choices:
    - a Python [str] is the byte string of its UTF-8 encoding, a [dict] is a
      [gmap string _], the MongoDB collection is the list of its documents
      in natural order, and the clock counts whole seconds;
    - a request body is what [request.get_json()] makes of it (Flask 2.3 and
      later): no JSON content type (415), a body that does not parse (400),
      or a parsed value: an object, an array or a scalar.  The members of an
      object or array are scalars (null, booleans, integers, strings);
      floats and nested containers are not modelled;
    - the store driver refuses what BSON cannot hold: an integer outside 64
      bits raises [OverflowError], in a filter as in a document;
    - bcrypt, werkzeug's [secure_filename], Pillow's decoder and the torch
      tensor operations are interfaces (type classes); [hashpw] and
      [checkpw] may raise [ValueError] (bcrypt 5 does for a password of more
      than 72 bytes); scores are rationals, which finite floats are;
    - PyJWT is modelled symbolically: a token is a JWS over a claims set
      under a key, or any other string;
    - [request.files], [jwt.encode], [jsonify], [render_template] and
      [file.save] are taken to succeed, the store is taken to be reachable
      and documents to be within its size limit. *)

From Stdlib Require Import Ascii QArith.
From stdpp Require Import base gmap strings list fin_maps.

Local Open Scope Z_scope.

(** ** Python strings *)

Module PyStr.

(** [c in s] for a one-character needle. *)
Fixpoint contains (c : ascii) (s : string) : bool :=
  match s with
  | EmptyString => false
  | String a s' => Ascii.eqb a c || contains c s'
  end.

(** The split point of [s.rsplit(sep, 1)]: the text before and after the
    last occurrence of [sep], when there is one. *)
Fixpoint rpartition (sep : ascii) (s : string) : option (string * string) :=
  match s with
  | EmptyString => None
  | String a s' =>
      match rpartition sep s' with
      | Some (pre, suf) => Some (String a pre, suf)
      | None => if Ascii.eqb a sep then Some (EmptyString, s') else None
      end
  end.

(** [s.rsplit(sep, 1)]: at most one split, taken from the right. *)
Definition rsplit1 (sep : ascii) (s : string) : list string :=
  match rpartition sep s with
  | Some (pre, suf) => [pre; suf]
  | None => [s]
  end.

Definition lower_ascii (a : ascii) : ascii :=
  let n := nat_of_ascii a in
  if (65 <=? n)%nat && (n <=? 90)%nat then ascii_of_nat (n + 32) else a.

(** [s.lower()].  On the UTF-8 encoding only the ASCII capitals move; no
    non-ASCII code point lowercases to the letters of an allowed
    extension, so membership in [ALLOWED_EXTENSIONS] is unaffected. *)
Fixpoint lower (s : string) : string :=
  match s with
  | EmptyString => EmptyString
  | String a s' => String (lower_ascii a) (lower s')
  end.

End PyStr.

(** ** Upload validation *)

Definition ALLOWED_EXTENSIONS : gset string := {[ "png"; "jpg"; "jpeg" ]}.

(** [allowed_file]: the index [[1]] is guarded by ['.' in filename]; the
    [None] branch stands for the [IndexError] that the guard rules out
    (lemma [rsplit1_second]). *)
Definition allowed_file (filename : string) : bool :=
  PyStr.contains "." filename &&
  match PyStr.rsplit1 "." filename !! 1%nat with
  | Some ext => bool_decide (PyStr.lower ext ∈ ALLOWED_EXTENSIONS)
  | None => false
  end.

(** The reading of the rule in words: the name has a dot, and what follows
    its last dot is, lowercased, one of the three extensions. *)
Definition accepted_by_rule (filename : string) : Prop :=
  ∃ stem ext : string,
    filename = stem +:+ "." +:+ ext ∧
    PyStr.contains "." ext = false ∧
    (PyStr.lower ext = "png" ∨ PyStr.lower ext = "jpg" ∨ PyStr.lower ext = "jpeg").

(** ** Python values *)

(** The values that occur in request bodies, in stored documents and in
    response fields: JSON scalars, and the three non-JSON types the program
    stores ([bytes] for password hashes, [datetime], [ObjectId]).  Floats,
    arrays and nested objects in request bodies are outside the model. *)
Inductive value :=
  | VNone
  | VBool (b : bool)
  | VInt (z : Z)
  | VStr (s : string)
  | VBytes (b : string)
  | VDateTime (t : Z)
  | VObjectId (n : N).

#[global] Instance value_eq_dec : EqDecision value.
Proof. solve_decision. Defined.

(** Truth value of a Python object ([not v] is its negation). *)
Definition truthy (v : value) : bool :=
  match v with
  | VNone => false
  | VBool b => b
  | VInt z => negb (z =? 0)
  | VStr s => negb (String.eqb s "")
  | VBytes b => negb (String.eqb b "")
  | VDateTime _ | VObjectId _ => true
  end.

(** Python [==]: structural, except that [bool] is a subtype of [int]. *)
Definition py_eq (a b : value) : bool :=
  match a, b with
  | VBool x, VInt z | VInt z, VBool x => z =? (if x then 1 else 0)
  | _, _ => bool_decide (a = b)
  end.

(** The exceptions the views can raise.  The last two are werkzeug's
    [HTTPException]s, which Flask answers with their own status code; every
    other one is answered with a 500. *)
Inductive exn :=
  | KeyError (key : string)
  | TypeError
  | AttributeError
  | IndexError
  | FileNotFoundError
  | UnidentifiedImageError
  | ValueError
  | OverflowError
  | BadRequest
  | UnsupportedMediaType.

(** ** Tokens (PyJWT, symbolically) *)

Record claims := { userId : string; name : value; exp : Z }.

(** An [Authorization] value or an issued token, as a string seen through
    the signature scheme: a compact JWS over [c] tagged with HS256 under
    [key]; such a string behind a ["Bearer "] prefix; or any other string. *)
Inductive token :=
  | Opaque (s : string)
  | Jws (c : claims) (key : string)
  | Bearer (t : token).

Inductive jwt_result :=
  | Decoded (c : claims)
  | ExpiredSignatureError
  | InvalidTokenError.

Definition jwt_encode (payload : claims) (key : string) : token := Jws payload key.

(** [jwt.decode(token, key, algorithms=["HS256"])] at clock reading [now]:
    the signature is checked first, then [exp].  PyJWT 2 rejects from
    [exp <= now] on, as here; PyJWT 1 still accepts at [now = exp]. *)
Definition jwt_decode (t : token) (key : string) (now : Z) : jwt_result :=
  match t with
  | Jws c k =>
      if String.eqb k key then
        if exp c <=? now then ExpiredSignatureError else Decoded c
      else InvalidTokenError
  | Opaque _ | Bearer _ => InvalidTokenError
  end.

(** [not token] holds of the empty string only. *)
Definition token_truthy (t : token) : bool :=
  match t with
  | Opaque s => negb (String.eqb s "")
  | Jws _ _ | Bearer _ => true
  end.

(** ** Responses *)

(** What a view hands to [jsonify]. *)
#[warnings="-register-all"] Inductive pyobj :=
  | PVal (v : value)
  | PToken (t : token)
  | PList (l : list pyobj)
  | PDict (d : gmap string pyobj).

(** [ErrorPage] is the page Flask renders for an [HTTPException]: it has
    the exception's status code and no JSON body. *)
Inductive outcome :=
  | Json (status : nat) (body : pyobj)
  | Html (template : string)
  | ErrorPage (status : nat)
  | InternalServerError (e : exn).

Definition status_code (o : outcome) : nat :=
  match o with
  | Json s _ => s
  | Html _ => 200
  | ErrorPage s => s
  | InternalServerError _ => 500
  end%nat.

(** A field of a JSON object response. *)
Definition field (o : outcome) (k : string) : option pyobj :=
  match o with
  | Json _ (PDict d) => d !! k
  | _ => None
  end.

Definition error_response (msg : string) (code : nat) : outcome :=
  Json code (PDict {[ "error" := PVal (VStr msg) ]}).

Definition message_response (msg : string) : outcome :=
  Json 200 (PDict {[ "message" := PVal (VStr msg) ]}).

(** ** The user collection (PyMongo) *)

Module ObjectId.

Definition hex_digit (d : N) : ascii :=
  if (d <? 10)%N then ascii_of_N (48 + d) else ascii_of_N (87 + d).

Fixpoint hex (digits : nat) (x : N) : string :=
  match digits with
  | O => EmptyString
  | S n => hex n (x / 16)%N +:+ String (hex_digit (x mod 16)%N) EmptyString
  end.

(** [str(oid)]: the 24 hexadecimal digits of the 12-byte identifier. *)
Definition str (oid : N) : string := hex 24 oid.

End ObjectId.

Record document := { _id : N; fields : gmap string value }.

Module Collection.

(** [doc[k]] on the dictionary PyMongo returns for a document. *)
Definition getitem (d : document) (k : string) : option value :=
  if String.eqb k "_id" then Some (VObjectId (_id d)) else fields d !! k.

(** The filter [{k: v}]: field equality; a missing field matches [None]. *)
Definition filter_eq (k : string) (v : value) (d : document) : bool :=
  bool_decide (default VNone (getitem d k) = v).

Definition find_one (k : string) (v : value) (c : list document) : option document :=
  List.find (filter_eq k v) c.

(** [insert_one(doc)] for a [doc] without ["_id"]: the driver assigns [oid]. *)
Definition insert_one (oid : N) (doc : gmap string value) (c : list document)
  : list document :=
  c ++ [{| _id := oid; fields := doc |}].

(** [update_one({k: v}, {"$set": {f: x}})]: the first match only. *)
Fixpoint update_one (k : string) (v : value) (f : string) (x : value)
    (c : list document) : list document :=
  match c with
  | [] => []
  | d :: c' =>
      if filter_eq k v d
      then {| _id := _id d; fields := <[f := x]> (fields d) |} :: c'
      else d :: update_one k v f x c'
  end.

(** [delete_one({k: v})]: the first match only. *)
Fixpoint delete_one (k : string) (v : value) (c : list document) : list document :=
  match c with
  | [] => []
  | d :: c' => if filter_eq k v d then c' else d :: delete_one k v c'
  end.

(** [find({}, {f: 0})]: every document, without field [f]. *)
Definition find_all_without (f : string) (c : list document) : list document :=
  map (λ d, {| _id := _id d; fields := delete f (fields d) |}) c.

End Collection.

(** What the driver can encode as BSON: an integer must fit in 8 bytes
    ("MongoDB can only handle up to 8-byte ints"). *)
Module Bson.

Definition encodable (v : value) : bool :=
  match v with
  | VInt z => bool_decide (- 2 ^ 63 ≤ z < 2 ^ 63)
  | _ => true
  end.

Definition encodable_doc (doc : gmap string value) : bool :=
  bool_decide (map_Forall (λ _ v, encodable v = true) doc).

End Bson.

(** ** External libraries *)

(** [bcrypt.hashpw(password, salt)] and [bcrypt.checkpw(password, hashed)];
    [None] when the call raises [ValueError] (an invalid salt; in bcrypt 5
    also a password of more than 72 bytes, which earlier versions cut). *)
Class Bcrypt := {
  hashpw : string → string → option string;
  checkpw : string → string → option bool
}.

(** [werkzeug.utils.secure_filename]. *)
Class Werkzeug := {
  secure_filename : string → string
}.

(** [Image.open(...).convert("RGB")] on the bytes of a file; [None] when
    Pillow cannot identify an image in them. *)
Class Pillow := {
  image : Type;
  Image_open : string → option image
}.

(** The tensor operations the program calls.  [transform] is the composed
    torchvision pipeline (resize to 64x64, to tensor, normalise); [row] reads
    the scores of a 1 x n tensor, finite floats being rationals. *)
Class Torch (image : Type) := {
  tensor : Type;
  conv_params : Type;
  linear_params : Type;
  transform : image → tensor;
  unsqueeze : tensor → tensor;
  conv2d : conv_params → tensor → tensor;
  max_pool2d : tensor → tensor;
  relu : tensor → tensor;
  view : tensor → tensor;
  linear : linear_params → tensor → tensor;
  row : tensor → list Q
}.

(** [torch.max(outputs, 1)] on a single row: the index of the first
    maximal score. *)
Fixpoint argmax_from (best_i : nat) (best : Q) (i : nat) (l : list Q) : nat :=
  match l with
  | [] => best_i
  | x :: l' =>
      if Qlt_le_dec best x
      then argmax_from i x (S i) l'
      else argmax_from best_i best (S i) l'
  end.

Definition argmax (l : list Q) : option nat :=
  match l with
  | [] => None
  | x :: l' => Some (argmax_from 0 x 1 l')
  end.

(** ** Static tables *)

Definition classes : list string := [
  "Tomato_Bacterial_Spot"; "Tomato_Early_Blight"; "Tomato_Leaf_Mold";
  "Tomato_Septoria_Spot"; "Tomato_Yellow_Leaf_Curl"; "Tomato_Healthy";
  "Potato_Early_Blight"; "Potato_Late_Blight"; "Potato_Healthy";
  "Corn_Common_Rust"
].

Definition info_entry (definition color health_status : string) : gmap string value :=
  {[ "definition" := VStr definition; "color" := VStr color;
     "health_status" := VStr health_status ]}.

Definition disease_info : gmap string (gmap string value) :=
  {[ "Tomato_Bacterial_Spot" := info_entry "Bacterial spots on leaves and fruits." "red" "Unhealthy";
     "Tomato_Early_Blight" := info_entry "Fungal dark spots on older leaves." "brown" "Unhealthy";
     "Tomato_Leaf_Mold" := info_entry "Yellow spots with mold under leaves." "orange" "Unhealthy";
     "Tomato_Septoria_Spot" := info_entry "Gray-centered circular spots." "gray" "Unhealthy";
     "Tomato_Yellow_Leaf_Curl" := info_entry "Curling and yellowing of leaves." "yellow" "Unhealthy";
     "Tomato_Healthy" := info_entry "Healthy tomato leaf." "green" "Healthy";
     "Potato_Early_Blight" := info_entry "Brown spots with rings on leaves." "brown" "Unhealthy";
     "Potato_Late_Blight" := info_entry "Rapid lesions on leaves and stems." "darkred" "Unhealthy";
     "Potato_Healthy" := info_entry "Healthy potato foliage." "green" "Healthy";
     "Corn_Common_Rust" := info_entry "Red-brown pustules on corn leaves." "red" "Unhealthy" ]}.

Definition unknown_info : gmap string value :=
  info_entry "Unknown disease." "gray" "Unknown".

Definition UPLOAD_FOLDER : string := "static/uploads".

(** [os.path.join(a, b)] for a directory [a] without a trailing slash. *)
Definition path_join (a b : string) : string :=
  match b with
  | String "/" _ => b
  | _ => a +:+ "/" +:+ b
  end.

(** ** Requests *)

Record FileStorage := { filename : string; stream : string }.

(** What [json.loads] returns for a body: an object, an array, or a
    scalar ([null] included). *)
Inductive json_value :=
  | JObject (d : gmap string value)
  | JArray (l : list value)
  | JScalar (v : value).

(** A request body as [request.get_json()] sees it. *)
Inductive payload :=
  | NotJson
  | Malformed
  | Parsed (j : json_value).

(** The parts of a Flask request the views read: [request.files], the
    body and the [Authorization] header. *)
Record request := {
  files : gmap string FileStorage;
  body : payload;
  authorization : option token
}.

(** The body of a request that carries a JSON object. *)
Definition json (req : request) : option (gmap string value) :=
  match body req with
  | Parsed (JObject d) => Some d
  | _ => None
  end.

(** Truth value of a parsed body ([not data] is its negation). *)
Definition json_truthy (j : json_value) : bool :=
  match j with
  | JObject d => negb (bool_decide (d = ∅))
  | JArray l => negb (bool_decide (l = []))
  | JScalar v => truthy v
  end.

(** What a request draws from its surroundings: the clock
    ([datetime.utcnow()], in seconds) and the salt of [bcrypt.gensalt()]. *)
Record env := { utcnow : Z; gensalt : string }.

Inductive route :=
  | Predict | Register | Login | ForgotPassword | DeleteAccount | Users | Index.

(** ** The application *)

Section App.

Context {bcrypt_lib : Bcrypt} {werkzeug_lib : Werkzeug}
        {pillow_lib : Pillow} {torch_lib : Torch image}.

(** *** The classifier *)

Record TinyCNN := {
  conv1 : conv_params;
  conv2 : conv_params;
  fc1 : linear_params;
  fc2 : linear_params
}.

Definition forward (self : TinyCNN) (x : tensor) : tensor :=
  let x := max_pool2d (relu (conv2d (conv1 self) x)) in
  let x := max_pool2d (relu (conv2d (conv2 self) x)) in
  let x := view x in
  let x := relu (linear (fc1 self) x) in
  linear (fc2 self) x.

(** *** Process state

    The module-level objects a request can reach: the user collection
    (with the driver's identifier supply), the upload directory, the
    trained model and the signing secret. *)
Record state := {
  users : list document;
  next_oid : N;
  uploads : gmap string string;
  model : TinyCNN;
  JWT_SECRET : string
}.

Definition set_users (c : list document) (s : state) : state :=
  {| users := c; next_oid := next_oid s; uploads := uploads s;
     model := model s; JWT_SECRET := JWT_SECRET s |}.

Definition set_next_oid (n : N) (s : state) : state :=
  {| users := users s; next_oid := n; uploads := uploads s;
     model := model s; JWT_SECRET := JWT_SECRET s |}.

Definition set_uploads (u : gmap string string) (s : state) : state :=
  {| users := users s; next_oid := next_oid s; uploads := u;
     model := model s; JWT_SECRET := JWT_SECRET s |}.

(** *** Views as stateful computations that may raise *)

Definition M (A : Type) : Type := state → (exn + A) * state.

Definition ret {A} (a : A) : M A := λ s, (inr a, s).

Definition bind {A B} (m : M A) (k : A → M B) : M B :=
  λ s, match m s with
       | (inl e, s') => (inl e, s')
       | (inr a, s') => k a s'
       end.

Definition raise {A} (e : exn) : M A := λ s, (inl e, s).

Definition gets {A} (f : state → A) : M A := λ s, (inr (f s), s).

Definition modify (f : state → state) : M unit := λ s, (inr tt, f s).

Definition or_raise {A} (e : exn) (o : option A) : M A :=
  match o with
  | Some a => ret a
  | None => raise e
  end.

Notation "'let*' x ':=' m 'in' k" := (bind m (λ x, k))
  (at level 10, x name, m at level 100, k at level 200, only parsing).
Notation "m ';;' k" := (bind m (λ _, k))
  (at level 100, k at level 200, right associativity, only parsing).

(** [request.get_json()]: werkzeug raises [UnsupportedMediaType] when the
    content type is not JSON and [BadRequest] when the body does not
    parse. *)
Definition get_json (req : request) : M json_value :=
  match body req with
  | NotJson => raise UnsupportedMediaType
  | Malformed => raise BadRequest
  | Parsed j => ret j
  end.

(** [data[k]] on the parsed body: only a [dict] takes a string key. *)
Definition subscript (data : json_value) (k : string) : M value :=
  match data with
  | JObject d => or_raise (KeyError k) (d !! k)
  | JArray _ | JScalar _ => raise TypeError
  end.

(** [data.get(k)] on the parsed body: only a [dict] has the method. *)
Definition dict_get (data : json_value) (k : string) : M value :=
  match data with
  | JObject d => ret (default VNone (d !! k))
  | JArray _ | JScalar _ => raise AttributeError
  end.

(** [user[k]] on a document. *)
Definition doc_getitem (user : document) (k : string) : M value :=
  or_raise (KeyError k) (Collection.getitem user k).

(** [v.encode()]: only [str] has the method. *)
Definition encode (v : value) : M string :=
  match v with
  | VStr s => ret s
  | _ => raise AttributeError
  end.

Definition bcrypt_hashpw (password salt : string) : M string :=
  or_raise ValueError (hashpw password salt).

(** [bcrypt.checkpw] wants [bytes] for the stored hash. *)
Definition bcrypt_checkpw (password : string) (hashed : value) : M bool :=
  match hashed with
  | VBytes h => or_raise ValueError (checkpw password h)
  | _ => raise TypeError
  end.

(** The calls on the collection.  The driver encodes the filter and the
    document before anything reaches the store, so a value BSON cannot hold
    raises and leaves the collection as it was. *)
Definition users_find_one (k : string) (v : value) : M (option document) :=
  if Bson.encodable v then gets (λ s, Collection.find_one k v (users s))
  else raise OverflowError.

Definition users_insert_one (doc : gmap string value) : M unit :=
  if Bson.encodable_doc doc then
    modify (λ s, set_next_oid (N.succ (next_oid s))
                   (set_users (Collection.insert_one (next_oid s) doc (users s)) s))
  else raise OverflowError.

Definition users_update_one (k : string) (v : value) (f : string) (x : value) : M unit :=
  if Bson.encodable v && Bson.encodable x then
    modify (λ s, set_users (Collection.update_one k v f x (users s)) s)
  else raise OverflowError.

Definition users_delete_one (k : string) (v : value) : M unit :=
  modify (λ s, set_users (Collection.delete_one k v (users s)) s).

(** [file.save(path)] and [Image.open(path).convert("RGB")]. *)
Definition file_save (file : FileStorage) (path : string) : M unit :=
  modify (λ s, set_uploads (<[path := stream file]> (uploads s)) s).

Definition open_image (path : string) : M image :=
  let* content := gets (λ s, uploads s !! path) in
  let* bytes := or_raise FileNotFoundError content in
  or_raise UnidentifiedImageError (Image_open bytes).

(** *** [/predict] *)
Definition predict (req : request) : M outcome :=
  match files req !! "image" with
  | None => ret (error_response "No image uploaded" 400)
  | Some file =>
      if negb (allowed_file (filename file)) then
        ret (error_response "Unsupported file type" 400)
      else
        let fname := secure_filename (filename file) in
        let filepath := path_join UPLOAD_FOLDER fname in
        file_save file filepath ;;
        let* img := open_image filepath in
        let input_tensor := unsqueeze (transform img) in
        let* net := gets model in
        let outputs := forward net input_tensor in
        let* predicted := or_raise IndexError (argmax (row outputs)) in
        let* predicted_class := or_raise IndexError (classes !! predicted) in
        let info := default unknown_info (disease_info !! predicted_class) in
        let* definition := or_raise (KeyError "definition") (info !! "definition") in
        let* color := or_raise (KeyError "color") (info !! "color") in
        let* health := or_raise (KeyError "health_status") (info !! "health_status") in
        ret (Json 200 (PDict
          {[ "result" := PVal (VStr predicted_class);
             "definition" := PVal definition;
             "color" := PVal color;
             "healthy" := PVal (VBool (py_eq health (VStr "Healthy")));
             "image_url" := PVal (VStr ("/static/uploads/" +:+ fname)) ]}))
  end.

(** *** [/register] *)
Definition register (e : env) (req : request) : M outcome :=
  let* data := get_json req in
  let* email := subscript data "email" in
  let* existing := users_find_one "email" email in
  match existing with
  | Some _ => ret (error_response "Email already exists" 400)
  | None =>
      let* password := subscript data "password" in
      let* password := encode password in
      let* hashed := bcrypt_hashpw password (gensalt e) in
      let* name := subscript data "name" in
      let* email := subscript data "email" in
      let* q1 := subscript data "q1" in
      let* q2 := subscript data "q2" in
      let user : gmap string value :=
        {[ "name" := name; "email" := email; "password" := VBytes hashed;
           "q1" := q1; "q2" := q2; "createdAt" := VDateTime (utcnow e) ]} in
      users_insert_one user ;;
      ret (message_response "Registered successfully")
  end.

(** *** [/login] *)
Definition login (e : env) (req : request) : M outcome :=
  let* data := get_json req in
  let* email := subscript data "email" in
  let* found := users_find_one "email" email in
  match found with
  | None => ret (error_response "Invalid email or password" 401)
  | Some user =>
      let* password := subscript data "password" in
      let* password := encode password in
      let* hashed := doc_getitem user "password" in
      let* ok := bcrypt_checkpw password hashed in
      if negb ok then ret (error_response "Invalid email or password" 401)
      else
        let* uname := doc_getitem user "name" in
        let* secret := gets JWT_SECRET in
        let token :=
          jwt_encode {| userId := ObjectId.str (_id user); name := uname;
                        exp := utcnow e + 2 * 3600 |} secret in
        let* uname := doc_getitem user "name" in
        ret (Json 200 (PDict
          {[ "message" := PVal (VStr "Logged in");
             "token" := PToken token;
             "name" := PVal uname ]}))
  end.

(** *** [/forgot-password] *)
Definition forgot_password (e : env) (req : request) : M outcome :=
  let* data := get_json req in
  let* email := dict_get data "email" in
  let* q1 := dict_get data "q1" in
  let* q2 := dict_get data "q2" in
  let* new_pass := dict_get data "newPass" in
  let* found := users_find_one "email" email in
  match found with
  | None => ret (error_response "User not found" 404)
  | Some user =>
      let* stored1 := doc_getitem user "q1" in
      if negb (py_eq stored1 q1) then
        ret (error_response "Security answers do not match" 401)
      else
        let* stored2 := doc_getitem user "q2" in
        if negb (py_eq stored2 q2) then
          ret (error_response "Security answers do not match" 401)
        else
          let* new_pass := encode new_pass in
          let* hashed := bcrypt_hashpw new_pass (gensalt e) in
          users_update_one "email" email "password" (VBytes hashed) ;;
          ret (message_response "Password updated successfully")
  end.

(** *** [/delete] *)
(** The three disjuncts of the guard are evaluated left to right, each
    only when the ones before it are false. *)
Definition delete_account (req : request) : M outcome :=
  let* data := get_json req in
  if negb (json_truthy data) then
    ret (error_response "Email and password required" 400)
  else
    let* email := dict_get data "email" in
    if negb (truthy email) then
      ret (error_response "Email and password required" 400)
    else
      let* password := dict_get data "password" in
      if negb (truthy password) then
        ret (error_response "Email and password required" 400)
      else
        let* email := subscript data "email" in
        let* found := users_find_one "email" email in
        match found with
        | None => ret (error_response "Invalid email or password" 401)
        | Some user =>
            let* password := subscript data "password" in
            let* password := encode password in
            let* hashed := doc_getitem user "password" in
            let* ok := bcrypt_checkpw password hashed in
            if negb ok then ret (error_response "Invalid email or password" 401)
            else
              users_delete_one "_id" (VObjectId (_id user)) ;;
              ret (message_response "Account deleted successfully")
        end.

(** *** [login_required] and [/users] *)
Definition login_required (f : M outcome) (e : env) (req : request) : M outcome :=
  match authorization req with
  | None => ret (error_response "Token missing" 401)
  | Some token =>
      if negb (token_truthy token) then ret (error_response "Token missing" 401)
      else
        let* secret := gets JWT_SECRET in
        match jwt_decode token secret (utcnow e) with
        | ExpiredSignatureError => ret (error_response "Token expired" 403)
        | InvalidTokenError => ret (error_response "Invalid token" 403)
        | Decoded _ => f
        end
  end.

(** The dictionary of a listed user once [user['_id'] = str(user['_id'])]
    has run. *)
Definition listed (user : document) : gmap string value :=
  <["_id" := VStr (ObjectId.str (_id user))]> (fields user).

Definition get_users_view : M outcome :=
  let* user_list := gets (λ s, Collection.find_all_without "password" (users s)) in
  let user_list := map listed user_list in
  ret (Json 200 (PDict
    {[ "count" := PVal (VInt (Z.of_nat (length user_list)));
       "users" := PList (map (λ u, PDict (PVal <$> u)) user_list) ]})).

Definition get_users : env → request → M outcome := login_required get_users_view.

Definition index : M outcome := ret (Html "index.html").

(** *** Flask dispatch

    An [HTTPException] that leaves a view is answered with its own status
    code; any other exception becomes a 500. *)
Definition handle_exception (e : exn) : outcome :=
  match e with
  | BadRequest => ErrorPage 400
  | UnsupportedMediaType => ErrorPage 415
  | _ => InternalServerError e
  end.

Definition run_view (v : M outcome) (s : state) : outcome * state :=
  match v s with
  | (inl e, s') => (handle_exception e, s')
  | (inr o, s') => (o, s')
  end.

Definition handle (r : route) (e : env) (req : request) : state → outcome * state :=
  run_view
    match r with
    | Predict => predict req
    | Register => register e req
    | Login => login e req
    | ForgotPassword => forgot_password e req
    | DeleteAccount => delete_account req
    | Users => get_users e req
    | Index => index
    end.

(** A served request and the state after a sequence of them. *)
Definition event : Type := route * env * request.

Definition step (s : state) (ev : event) : state :=
  let '(r, e, req) := ev in (handle r e req s).2.

Definition serve (tr : list event) (s : state) : state := foldl step s tr.

End App.

(** ** Sample instances of the external interfaces

    Small executable stand-ins, used to run the views on concrete requests.
    The sample hash refuses a password of more than 72 bytes, as bcrypt 5
    does; the sample decoder refuses the empty file, as Pillow does; the
    sample network returns the bias vector of its last layer. *)
Module Sample.

#[export] Instance bcrypt : Bcrypt := {|
  hashpw password salt :=
    if (72 <? String.length password)%nat then None
    else Some (salt +:+ "$" +:+ password);
  checkpw password hashed :=
    if (72 <? String.length password)%nat then None
    else
      match PyStr.rpartition "$" hashed with
      | Some (_, tail) => Some (String.eqb tail password)
      | None => None
      end
|}.

#[export] Instance werkzeug : Werkzeug := {| secure_filename name := name |}.

#[export] Instance pillow : Pillow := {|
  image := string;
  Image_open bytes := if String.eqb bytes "" then None else Some bytes
|}.

#[export] Instance torch : Torch string := {|
  tensor := list Q;
  conv_params := unit;
  linear_params := list Q;
  transform _ := [];
  unsqueeze x := x;
  conv2d _ x := x;
  max_pool2d x := x;
  relu x := x;
  view x := x;
  linear bias _ := bias;
  row x := x
|}.

Definition net : TinyCNN := {|
  conv1 := tt; conv2 := tt; fc1 := [];
  fc2 := [0; 3; 1; 3; 2; 0; 0; 1; 2; 1]%Q
|}.

Definition fresh : state := {|
  users := []; next_oid := 0; uploads := ∅; model := net; JWT_SECRET := "s3cret"
|}.

Definition at_time (t : Z) : env := {| utcnow := t; gensalt := "salt" |}.

Definition json_request (data : gmap string value) : request :=
  {| files := ∅; body := Parsed (JObject data); authorization := None |}.

Definition upload_request (name bytes : string) : request :=
  {| files := {[ "image" := {| filename := name; stream := bytes |} ]};
     body := NotJson; authorization := None |}.

Definition bearer_request (t : option token) : request :=
  {| files := ∅; body := NotJson; authorization := t |}.

Definition alice : gmap string value :=
  {[ "name" := VStr "Alice"; "email" := VStr "alice@example.org";
     "password" := VStr "hunter2"; "q1" := VStr "blue"; "q2" := VStr "rex" ]}.

Definition registered : state :=
  (handle Register (at_time 1000) (json_request alice) fresh).2.

Definition recover : gmap string value :=
  {[ "email" := VStr "alice@example.org"; "q1" := VStr "blue"; "q2" := VStr "rex";
     "newPass" := VStr "correct horse" ]}.

End Sample.

(** Two more request bodies for the sample runs. *)

(** Wrong answers to the security questions. *)
Definition wrong_answers : gmap string value :=
  {[ "email" := VStr "alice@example.org"; "q1" := VStr "red"; "q2" := VStr "rex";
     "newPass" := VStr "correct horse" ]}.

(** Alice's credentials after the reset. *)
Definition new_login : gmap string value :=
  {[ "email" := VStr "alice@example.org"; "password" := VStr "correct horse" ]}.

(** A registration whose first answer is the integer 2^63. *)
Definition dave : gmap string value :=
  {[ "name" := VStr "Dave"; "email" := VStr "dave@example.org";
     "password" := VStr "swordfish"; "q1" := VInt (2 ^ 63); "q2" := VStr "rex" ]}.

(** A registration whose answers are the JSON values [1] and [false], and
    a reset that supplies [true] and [0] for them. *)
Definition carol : gmap string value :=
  {[ "name" := VStr "Carol"; "email" := VStr "carol@example.org";
     "password" := VStr "tr0ub4dor"; "q1" := VInt 1; "q2" := VBool false ]}.

Definition carol_reset : gmap string value :=
  {[ "email" := VStr "carol@example.org"; "q1" := VBool true; "q2" := VInt 0;
     "newPass" := VStr "letmein" ]}.

(** ** The vocabulary of the properties *)

(** [i] is the index of the first maximal element of [l]. *)
Definition first_maximum (l : list Q) (i : nat) : Prop :=
  ∃ y, l !! i = Some y ∧
       (∀ j x, l !! j = Some x → (x <= y)%Q) ∧
       (∀ j x, (j < i)%nat → l !! j = Some x → (x < y)%Q).

(** An [{error: message}] body. *)
Definition is_error (o : outcome) : Prop :=
  ∃ msg, field o "error" = Some (PVal (VStr msg)).

(** A body whose [result] is a class label and whose [definition], [color]
    and [healthy] are read off that label's [disease_info] entry. *)
Definition labelled (o : outcome) : Prop :=
  ∃ label info d c h,
    label ∈ classes ∧
    disease_info !! label = Some info ∧
    info !! "definition" = Some d ∧
    info !! "color" = Some c ∧
    info !! "health_status" = Some h ∧
    field o "result" = Some (PVal (VStr label)) ∧
    field o "definition" = Some (PVal d) ∧
    field o "color" = Some (PVal c) ∧
    field o "healthy" = Some (PVal (VBool (bool_decide (h = VStr "Healthy")))).

(** [entry] shows document [d]: its identifier as text, no password, and
    every other field as stored. *)
Definition shows (entry : gmap string value) (d : document) : Prop :=
  entry !! "_id" = Some (VStr (ObjectId.str (_id d))) ∧
  entry !! "password" = None ∧
  ∀ k, k ≠ "_id" → k ≠ "password" → entry !! k = fields d !! k.

(** The value a filter on ["email"] compares with. *)
Definition email_of (d : document) : value :=
  default VNone (Collection.getitem d "email").

Section Vocabulary.

Context {bcrypt_lib : Bcrypt} {werkzeug_lib : Werkzeug}
        {pillow_lib : Pillow} {torch_lib : Torch image}.

(** The scores the network assigns to a decoded image. *)
Definition scores (s : state) (img : image) : list Q :=
  row (forward (model s) (unsqueeze (transform img))).

(** A [{count, users}] body that lists the whole collection, in order. *)
Definition user_listing (s : state) (o : outcome) : Prop :=
  field o "count" = Some (PVal (VInt (Z.of_nat (length (users s))))) ∧
  ∃ entries,
    field o "users" = Some (PList (map (λ u, PDict (PVal <$> u)) entries)) ∧
    Forall2 shows entries (users s).

(** The document [/register] builds from a body, the hash of its password
    and the clock. *)
Definition new_user (e : env) (name email q1 q2 : value) (hashed : string)
  : gmap string value :=
  {[ "name" := name; "email" := email; "password" := VBytes hashed;
     "q1" := q1; "q2" := q2; "createdAt" := VDateTime (utcnow e) ]}.



(** A computation that leaves the model and the signing secret alone. *)
Definition keeps_globals {A} (m : M A) : Prop :=
  ∀ s, model (m s).2 = model s ∧ JWT_SECRET (m s).2 = JWT_SECRET s.

(** Identifiers are distinct and below the driver's next one; emails are
    distinct. *)
Definition store_ok (s : state) : Prop :=
  NoDup (map _id (users s)) ∧
  NoDup (map email_of (users s)) ∧
  Forall (λ oid, (oid < next_oid s)%N) (map _id (users s)).

(** What one served request can do to the user collection. *)
Inductive store_step (ev : event) (s s' : state) : Prop :=
  | store_same :
      users s' = users s → next_oid s' = next_oid s →
      store_step ev s s'
  | store_insert e req data email doc :
      ev = (Register, e, req) →
      json req = Some data → data !! "email" = Some email →
      doc !! "email" = Some email →
      Collection.find_one "email" email (users s) = None →
      users s' = users s ++ [{| _id := next_oid s; fields := doc |}] →
      next_oid s' = N.succ (next_oid s) →
      store_step ev s s'
  | store_update email hashed :
      users s' = Collection.update_one "email" email "password" hashed (users s) →
      next_oid s' = next_oid s →
      store_step ev s s'
  | store_delete oid :
      users s' = Collection.delete_one "_id" (VObjectId oid) (users s) →
      next_oid s' = next_oid s →
      store_step ev s s'.

(** The [/predict] sentence as the specification words it: a missing
    field and a refused extension give 400, every other request a
    labelled 200. *)
Definition predict_total_claim (s : state) (e : env) (req : request) : Prop :=
  let o := (handle Predict e req s).1 in
  match files req !! "image" with
  | None => status_code o = 400%nat ∧ is_error o
  | Some file =>
      if allowed_file (filename file)
      then status_code o = 200%nat ∧ labelled o
      else status_code o = 400%nat
  end.

(** The [/users] sentence as the specification words it: 401 only for an
    absent header, 403 for every present header that does not decode. *)
Definition users_claim (s : state) (e : env) (req : request) : Prop :=
  let o := (handle Users e req s).1 in
  match authorization req with
  | None => status_code o = 401%nat
  | Some t =>
      match jwt_decode t (JWT_SECRET s) (utcnow e) with
      | ExpiredSignatureError => status_code o = 403%nat
      | InvalidTokenError => status_code o = 403%nat
      | Decoded _ => status_code o = 200%nat ∧ user_listing s o
      end
  end.

(** The [/register] sentence as the specification words it: a body whose
    email matches a record gets a 400 and changes nothing; any other gets
    the success message and one new record of six fields. *)
Definition register_claim (s : state) (e : env) (req : request) : Prop :=
  ∀ data email,
    json req = Some data → data !! "email" = Some email →
    let o := (handle Register e req s).1 in
    let s' := (handle Register e req s).2 in
    match Collection.find_one "email" email (users s) with
    | Some _ => status_code o = 400%nat ∧ s' = s
    | None =>
        o = message_response "Registered successfully" ∧
        ∃ d, users s' = users s ++ [d] ∧
             dom (fields d) =
               ({[ "name"; "email"; "password"; "q1"; "q2"; "createdAt" ]}
                : gset string)
    end.

(** The [/forgot-password] sentence as the specification words it: 404
    without a matching record; 401, the password kept, when a stored
    answer is not exactly the supplied one; the success message when both
    are. *)
Definition forgot_password_claim (s : state) (e : env) (req : request) : Prop :=
  ∀ data,
    json req = Some data →
    let email := default VNone (data !! "email") in
    let q1 := default VNone (data !! "q1") in
    let q2 := default VNone (data !! "q2") in
    let o := (handle ForgotPassword e req s).1 in
    let s' := (handle ForgotPassword e req s).2 in
    match Collection.find_one "email" email (users s) with
    | None => status_code o = 404%nat ∧ s' = s
    | Some user =>
        if bool_decide (fields user !! "q1" = Some q1 ∧ fields user !! "q2" = Some q2)
        then
          o = message_response "Password updated successfully" ∧
          ∃ hashed, users s' =
            Collection.update_one "email" email "password" (VBytes hashed) (users s)
        else status_code o = 401%nat ∧ users s' = users s
    end.


End Vocabulary.

(** ** Bodies, equality and encodable documents *)

Section RequestFacts.

Lemma json_Some req data :
  json req = Some data ↔ body req = Parsed (JObject data).
Proof. unfold json. destruct (body req) as [| |[]]; split; congruence. Qed.


(** The document [/register] inserts is encodable exactly when the four
    values taken from the body are. *)
Lemma encodable_doc_user name email hashed q1 q2 t :
  Bson.encodable_doc
    {[ "name" := name; "email" := email; "password" := VBytes hashed;
       "q1" := q1; "q2" := q2; "createdAt" := VDateTime t ]} =
  Bson.encodable name && Bson.encodable email && Bson.encodable q1
  && Bson.encodable q2.
Proof.
  apply eq_true_iff_eq. unfold Bson.encodable_doc.
  rewrite bool_decide_eq_true, !andb_true_iff.
  rewrite !map_Forall_insert by done. rewrite map_Forall_singleton. simpl.
  tauto.
Qed.

End RequestFacts.

(** ** Symbolic execution of the views *)

Ltac unfold_views :=
  unfold step, handle, run_view, predict, register, login, forgot_password,
    delete_account, get_users, login_required, get_users_view, index,
    get_json, subscript, dict_get, doc_getitem, encode, bcrypt_hashpw,
    bcrypt_checkpw, users_find_one, users_insert_one, users_update_one,
    users_delete_one, file_save, open_image;
  unfold or_raise; unfold bind, gets, modify; unfold ret, raise.

Ltac reduce_view :=
  cbv beta iota;
  cbn [fst snd users next_oid uploads model JWT_SECRET handle_exception
       set_users set_next_oid set_uploads negb default from_option id].

(** One step: the encodability of a document is reduced to that of its
    values; otherwise the innermost scrutinee is split. *)
Ltac split_match :=
  first
    [ rewrite encodable_doc_user
    | match goal with
      | |- context [match ?x with _ => _ end] =>
          lazymatch x with
          | context [match _ with _ => _ end] => fail
          | _ => destruct x eqn:?
          end
      end ].

Ltac run_views := unfold_views; reduce_view; repeat (split_match; reduce_view).

(** ** Upload validation: properties *)

Section allowed_file_facts.

Lemma contains_app c s t :
  PyStr.contains c (s +:+ t) = PyStr.contains c s || PyStr.contains c t.
Proof.
  induction s as [|a s IH]; simpl; [done|].
  rewrite IH. by rewrite orb_assoc.
Qed.

Lemma rpartition_none sep s :
  PyStr.rpartition sep s = None ↔ PyStr.contains sep s = false.
Proof.
  induction s as [|a s IH]; simpl; [done|].
  destruct (PyStr.rpartition sep s) as [[pre suf]|].
  - split; [done|]. intros [_ H]%orb_false_iff.
    apply IH in H. done.
  - destruct (Ascii.eqb a sep); simpl; [done|].
    split; [intros _; by apply IH | done].
Qed.

Lemma rpartition_sound sep s pre suf :
  PyStr.rpartition sep s = Some (pre, suf) →
  s = pre +:+ String sep suf ∧ PyStr.contains sep suf = false.
Proof.
  revert pre suf. induction s as [|a s IH]; intros pre suf; simpl; [done|].
  destruct (PyStr.rpartition sep s) as [[p q]|] eqn:E.
  - intros [= <- <-]. by destruct (IH _ _ eq_refl) as [-> ?].
  - destruct (Ascii.eqb a sep) eqn:Ea; [|done].
    intros [= <- <-]. apply Ascii.eqb_eq in Ea as ->.
    split; [done|]. by apply rpartition_none.
Qed.

Lemma rpartition_complete sep pre suf :
  PyStr.contains sep suf = false →
  PyStr.rpartition sep (pre +:+ String sep suf) = Some (pre, suf).
Proof.
  intros Hsuf. induction pre as [|a pre IH]; simpl.
  - apply rpartition_none in Hsuf as ->. by rewrite Ascii.eqb_refl.
  - by rewrite IH.
Qed.

(** The guard makes the index [[1]] safe. *)
Lemma rsplit1_second s :
  PyStr.contains "." s = true → is_Some (PyStr.rsplit1 "." s !! 1%nat).
Proof.
  intros H. unfold PyStr.rsplit1.
  destruct (PyStr.rpartition "." s) as [[pre suf]|] eqn:E; [by eexists|].
  apply rpartition_none in E. congruence.
Qed.

Lemma allowed_extension_iff ext :
  ext ∈ ALLOWED_EXTENSIONS ↔ ext = "png" ∨ ext = "jpg" ∨ ext = "jpeg".
Proof.
  unfold ALLOWED_EXTENSIONS.
  rewrite !elem_of_union, !elem_of_singleton. tauto.
Qed.

End allowed_file_facts.

(** C9.  [allowed_file] accepts a name exactly when it has a dot and the
    text after its last dot is png, jpg or jpeg once lowercased: a name with
    no dot is rejected, case does not matter ([leaf.PNG] passes) and only
    the final extension counts ([a.png.exe] fails, [a.exe.png] passes). *)
Theorem allowed_file_last_extension :
  (∀ filename, allowed_file filename = true ↔ accepted_by_rule filename) ∧
  (∀ filename, PyStr.contains "." filename = false → allowed_file filename = false) ∧
  allowed_file "leaf.PNG" = true ∧
  allowed_file "a.png.exe" = false ∧
  allowed_file "a.exe.png" = true.
Proof.
  split; [|split; [|by vm_compute]].
  - intros filename. unfold allowed_file, accepted_by_rule, PyStr.rsplit1. split.
    + intros [Hdot Hext]%andb_true_iff.
      destruct (PyStr.rpartition "." filename) as [[pre suf]|] eqn:E;
        simpl in Hext; [|done].
      apply rpartition_sound in E as [-> Hsuf].
      apply bool_decide_eq_true, allowed_extension_iff in Hext.
      by exists pre, suf.
    + intros (stem & ext & -> & Hext & Hlow).
      assert (PyStr.rpartition "." (stem +:+ "." +:+ ext) = Some (stem, ext)) as ->
        by by apply rpartition_complete.
      rewrite contains_app. simpl. rewrite orb_true_r. simpl.
      by apply bool_decide_eq_true, allowed_extension_iff.
  - intros filename H. unfold allowed_file. by rewrite H.
Qed.

(** ** The arg-max *)

Section ArgmaxFacts.

Lemma argmax_from_first_maximum pre best_i best l :
  pre !! best_i = Some best →
  (∀ j x, pre !! j = Some x → (x <= best)%Q) →
  (∀ j x, (j < best_i)%nat → pre !! j = Some x → (x < best)%Q) →
  first_maximum (pre ++ l) (argmax_from best_i best (length pre) l).
Proof.
  revert pre best_i best.
  induction l as [|x l IH]; intros pre best_i best Hbest Hmax Hfirst; simpl.
  - rewrite app_nil_r. by exists best.
  - assert (pre ++ x :: l = (pre ++ [x]) ++ l) as -> by by rewrite <- app_assoc.
    assert (S (length pre) = length (pre ++ [x])) as ->
      by (rewrite length_app; simpl; lia).
    destruct (Qlt_le_dec best x) as [Hlt|Hle]; apply IH.
    + rewrite lookup_app_r by lia. by rewrite Nat.sub_diag.
    + intros j y [Hy|[_ Hy]]%lookup_app_Some.
      * apply Qlt_le_weak. eapply Qle_lt_trans; [by eapply Hmax|done].
      * destruct (j - length pre)%nat; simpl in Hy; [|done].
        injection Hy as <-. apply Qle_refl.
    + intros j y Hj Hy. rewrite lookup_app_l in Hy by done.
      eapply Qle_lt_trans; [by eapply Hmax|done].
    + apply lookup_lt_Some in Hbest as Hlen. by rewrite lookup_app_l.
    + intros j y [Hy|[_ Hy]]%lookup_app_Some; [by eapply Hmax|].
      destruct (j - length pre)%nat; simpl in Hy; [|done].
      by injection Hy as <-.
    + intros j y Hj Hy. apply lookup_lt_Some in Hbest as Hlen.
      rewrite lookup_app_l in Hy by lia. by eapply Hfirst.
Qed.

Lemma argmax_first_maximum l i : argmax l = Some i → first_maximum l i.
Proof.
  destruct l as [|x l]; simpl; [done|]. intros [= <-].
  apply (argmax_from_first_maximum [x] 0 x l); [done| |].
  - intros [|j] y Hy; simpl in Hy; [|done]. injection Hy as <-. apply Qle_refl.
  - intros j y Hj. lia.
Qed.

Lemma argmax_lt l i : argmax l = Some i → (i < length l)%nat.
Proof.
  intros (y & Hy & _)%argmax_first_maximum. by eapply lookup_lt_Some.
Qed.

Lemma argmax_is_Some l : l ≠ [] → is_Some (argmax l).
Proof. destruct l; [done|]. by eexists. Qed.

End ArgmaxFacts.

(** ** Tables and the [/predict] view *)

Section TableFacts.

Lemma info_entry_definition d c h : info_entry d c h !! "definition" = Some (VStr d).
Proof. unfold info_entry. by rewrite lookup_insert_eq. Qed.

Lemma info_entry_color d c h : info_entry d c h !! "color" = Some (VStr c).
Proof.
  unfold info_entry. rewrite lookup_insert_ne by done. by rewrite lookup_insert_eq.
Qed.

Lemma info_entry_health d c h : info_entry d c h !! "health_status" = Some (VStr h).
Proof.
  unfold info_entry. rewrite !lookup_insert_ne by done. by rewrite lookup_singleton_eq.
Qed.

(** Every class label has an entry in [disease_info]. *)
Lemma disease_info_total label :
  label ∈ classes → ∃ d c h, disease_info !! label = Some (info_entry d c h).
Proof.
  unfold classes. rewrite !elem_of_cons, elem_of_nil.
  intros H. repeat (destruct H as [->|H]; [by do 3 eexists|]). done.
Qed.


End TableFacts.

Section Predict.

Context {bcrypt_lib : Bcrypt} {werkzeug_lib : Werkzeug}
        {pillow_lib : Pillow} {torch_lib : Torch image}.

Lemma field_error_response msg code :
  field (error_response msg code) "error" = Some (PVal (VStr msg)).
Proof. unfold error_response, field. by rewrite lookup_singleton_eq. Qed.

Lemma field_error_response_other k msg code :
  k ≠ "error" → field (error_response msg code) k = None.
Proof. intros Hk. unfold error_response, field. by rewrite lookup_singleton_ne. Qed.

Lemma error_response_is_error msg code : is_error (error_response msg code).
Proof. exists msg. apply field_error_response. Qed.

(** The view on an accepted file name, once the upload has decoded. *)
Lemma predict_decoded s req file img :
  files req !! "image" = Some file →
  allowed_file (filename file) = true →
  Image_open (stream file) = Some img →
  predict req s =
    (let fname := secure_filename (filename file) in
     let s' := set_uploads (<[path_join UPLOAD_FOLDER fname := stream file]> (uploads s)) s in
     match argmax (scores s img) with
     | None => (inl IndexError, s')
     | Some i =>
         match classes !! i with
         | None => (inl IndexError, s')
         | Some label =>
             let info := default unknown_info (disease_info !! label) in
             match info !! "definition", info !! "color", info !! "health_status" with
             | Some d, Some c, Some h =>
                 (inr (Json 200 (PDict
                    {[ "result" := PVal (VStr label);
                       "definition" := PVal d;
                       "color" := PVal c;
                       "healthy" := PVal (VBool (py_eq h (VStr "Healthy")));
                       "image_url" := PVal (VStr ("/static/uploads/" +:+ fname)) ]})), s')
             | None, _, _ => (inl (KeyError "definition"), s')
             | _, None, _ => (inl (KeyError "color"), s')
             | _, _, None => (inl (KeyError "health_status"), s')
             end
         end
     end).
Proof.
  intros Hfile Hok Himg. unfold scores. unfold_views. rewrite Hfile, Hok.
  reduce_view. rewrite lookup_insert_eq. reduce_view. rewrite Himg. reduce_view.
  destruct (argmax _) as [i|]; [|done].
  destruct (classes !! i) as [label|]; [|done].
  destruct (default unknown_info (disease_info !! label) !! "definition"); [|done].
  destruct (default unknown_info (disease_info !! label) !! "color"); [|done].
  destruct (default unknown_info (disease_info !! label) !! "health_status"); done.
Qed.

(** The view on an accepted file name whose bytes do not decode: the
    file stays saved and Pillow's exception escapes. *)
Lemma predict_undecoded s req file :
  files req !! "image" = Some file →
  allowed_file (filename file) = true →
  Image_open (stream file) = None →
  predict req s =
    (inl UnidentifiedImageError,
     set_uploads (<[path_join UPLOAD_FOLDER (secure_filename (filename file))
                    := stream file]> (uploads s)) s).
Proof.
  intros Hfile Hok Himg. unfold_views. rewrite Hfile, Hok.
  reduce_view. rewrite lookup_insert_eq. reduce_view. by rewrite Himg.
Qed.

End Predict.

(** ** The model and the secret are never written *)

Section Frame.

Context {bcrypt_lib : Bcrypt} {werkzeug_lib : Werkzeug}
        {pillow_lib : Pillow} {torch_lib : Torch image}.

Lemma keeps_ret {A} (a : A) : keeps_globals (ret a).
Proof. by intros s. Qed.

Lemma keeps_raise {A} (e : exn) : keeps_globals (@raise _ _ A e).
Proof. by intros s. Qed.

Lemma keeps_gets {A} (f : state → A) : keeps_globals (gets f).
Proof. by intros s. Qed.

Lemma keeps_or_raise {A} e (o : option A) : keeps_globals (or_raise e o).
Proof. destruct o; [apply keeps_ret | apply keeps_raise]. Qed.

Lemma keeps_bind {A B} (m : M A) (k : A → M B) :
  keeps_globals m → (∀ a, keeps_globals (k a)) → keeps_globals (bind m k).
Proof.
  intros Hm Hk s. unfold bind. specialize (Hm s).
  destruct (m s) as [[e|a] s1]; simpl in *; [done|].
  destruct (Hk a s1) as [-> ->]. done.
Qed.

Lemma keeps_modify (f : state → state) :
  (∀ s, model (f s) = model s ∧ JWT_SECRET (f s) = JWT_SECRET s) →
  keeps_globals (modify f).
Proof. intros Hf s. apply Hf. Qed.

Ltac keeps :=
  repeat first
    [ apply keeps_ret | apply keeps_raise | apply keeps_gets
    | apply keeps_or_raise
    | apply keeps_modify; by intros ?
    | apply keeps_bind; [|intros ?]
    | match goal with
      | |- keeps_globals (match ?x with _ => _ end) => destruct x
      end ].

Lemma keeps_predict req : keeps_globals (predict req).
Proof. unfold predict, file_save, open_image. keeps. Qed.

Lemma keeps_register e req : keeps_globals (register e req).
Proof.
  unfold register, get_json, subscript, users_find_one, users_insert_one,
    encode, bcrypt_hashpw.
  keeps.
Qed.

Lemma keeps_login e req : keeps_globals (login e req).
Proof.
  unfold login, get_json, subscript, users_find_one, doc_getitem, encode,
    bcrypt_checkpw.
  keeps.
Qed.

Lemma keeps_forgot_password e req : keeps_globals (forgot_password e req).
Proof.
  unfold forgot_password, get_json, dict_get, users_find_one, users_update_one,
    doc_getitem, encode, bcrypt_hashpw.
  keeps.
Qed.

Lemma keeps_delete_account req : keeps_globals (delete_account req).
Proof.
  unfold delete_account, get_json, dict_get, subscript, users_find_one,
    users_delete_one, doc_getitem, encode, bcrypt_checkpw.
  keeps.
Qed.

Lemma keeps_get_users e req : keeps_globals (get_users e req).
Proof. unfold get_users, login_required, get_users_view. keeps. Qed.

(** No request changes the trained model or the signing secret. *)
Lemma handle_keeps_globals r e req s :
  model (handle r e req s).2 = model s ∧
  JWT_SECRET (handle r e req s).2 = JWT_SECRET s.
Proof.
  assert (∀ v : M outcome, keeps_globals v →
            model (run_view v s).2 = model s ∧
            JWT_SECRET (run_view v s).2 = JWT_SECRET s) as Hrun.
  { intros v Hv. unfold run_view. specialize (Hv s).
    by destruct (v s) as [[?|?] ?]. }
  unfold handle. apply Hrun. destruct r;
    auto using keeps_predict, keeps_register, keeps_login,
      keeps_forgot_password, keeps_delete_account, keeps_get_users.
  apply keeps_ret.
Qed.

Lemma serve_keeps_globals tr s :
  model (serve tr s) = model s ∧ JWT_SECRET (serve tr s) = JWT_SECRET s.
Proof.
  revert s. induction tr as [|[[r e] req] tr IH]; intros s; simpl; [done|].
  destruct (IH (handle r e req s).2) as [-> ->].
  apply handle_keeps_globals.
Qed.

End Frame.

(** ** [/predict] *)

Section PredictProperties.

Context {bcrypt_lib : Bcrypt} {werkzeug_lib : Werkzeug}
        {pillow_lib : Pillow} {torch_lib : Torch image}.

(** With one score per class the view reaches its last line. *)
Lemma predict_labelled s req file img :
  length (scores s img) = length classes →
  files req !! "image" = Some file →
  allowed_file (filename file) = true →
  Image_open (stream file) = Some img →
  ∃ i label o,
    argmax (scores s img) = Some i ∧ classes !! i = Some label ∧
    (predict req s).1 = inr o ∧ status_code o = 200%nat ∧ labelled o ∧
    field o "result" = Some (PVal (VStr label)).
Proof.
  intros Hlen Hfile Hok Himg.
  rewrite (predict_decoded s req file img) by done. cbv zeta.
  destruct (argmax_is_Some (scores s img)) as [i Hi].
  { intros E. rewrite E in Hlen. done. }
  rewrite Hi. apply argmax_lt in Hi as Hlt. rewrite Hlen in Hlt.
  destruct (lookup_lt_is_Some_2 classes i Hlt) as [label Hlabel].
  rewrite Hlabel.
  assert (label ∈ classes) as Hin by by eapply list_elem_of_lookup_2.
  destruct (disease_info_total label Hin) as (d & c & h & Hinfo).
  rewrite Hinfo. simpl.
  rewrite info_entry_definition, info_entry_color, info_entry_health.
  eexists i, label, _. do 4 (split; [done|]).
  split; [|by unfold field; rewrite lookup_insert_eq].
  exists label, (info_entry d c h), (VStr d), (VStr c), (VStr h).
  rewrite info_entry_definition, info_entry_color, info_entry_health.
  do 5 (split; [done|]). unfold field.
  rewrite lookup_insert_eq.
  rewrite (lookup_insert_ne _ "result" "definition") by done.
  rewrite lookup_insert_eq.
  rewrite !(lookup_insert_ne _ _ "color") by done.
  rewrite lookup_insert_eq.
  rewrite !(lookup_insert_ne _ _ "healthy") by done.
  rewrite lookup_insert_eq. done.
Qed.

(** C1 (amended).  Without the [image] field the answer is 400 with an
    error message; with a file name [allowed_file] refuses it is 400 with
    an error message; with an accepted name whose bytes decode to an image
    for which the network emits one score per class, it is 200 and carries
    a class label with that label's [disease_info] definition and colour
    and [healthy] true exactly for a "Healthy" entry.  When the bytes do
    not decode, Pillow's exception leaves the view. *)
Theorem predict_responses (s : state) (e : env) (req : request) :
  let o := (handle Predict e req s).1 in
  match files req !! "image" with
  | None => status_code o = 400%nat ∧ is_error o
  | Some file =>
      if allowed_file (filename file) then
        match Image_open (stream file) with
        | Some img =>
            length (scores s img) = length classes →
            status_code o = 200%nat ∧ labelled o
        | None => o = InternalServerError UnidentifiedImageError
        end
      else status_code o = 400%nat ∧ is_error o
  end.
Proof.
  cbv zeta. unfold handle, run_view.
  destruct (files req !! "image") as [file|] eqn:Hfile.
  - destruct (allowed_file (filename file)) eqn:Hok.
    + destruct (Image_open (stream file)) as [img|] eqn:Himg.
      * intros Hshape.
        destruct (predict_labelled s req file img Hshape Hfile Hok Himg)
          as (i & label & o & _ & _ & Ho & Hstatus & Hlab & _).
        destruct (predict req s) as [[?|?] ?]; simpl in Ho; [done|].
        by injection Ho as ->.
      * by rewrite (predict_undecoded s req file).
    + unfold predict. rewrite Hfile, Hok. simpl.
      split; [done|apply error_response_is_error].
  - unfold predict. rewrite Hfile. simpl.
    split; [done|apply error_response_is_error].
Qed.

(** Where the [result] field of a [/predict] response comes from. *)
Lemma predict_result_inv s e req label :
  field (handle Predict e req s).1 "result" = Some (PVal (VStr label)) →
  ∃ file img i,
    files req !! "image" = Some file ∧
    allowed_file (filename file) = true ∧
    Image_open (stream file) = Some img ∧
    argmax (scores s img) = Some i ∧
    classes !! i = Some label.
Proof.
  unfold handle, run_view.
  destruct (files req !! "image") as [file|] eqn:Hfile;
    [|by unfold predict; rewrite Hfile].
  destruct (allowed_file (filename file)) eqn:Hok;
    [|by unfold predict; rewrite Hfile, Hok].
  destruct (Image_open (stream file)) as [img|] eqn:Himg.
  - rewrite (predict_decoded s req file img) by done. cbv zeta.
    destruct (argmax (scores s img)) as [i|] eqn:Hi; [|done].
    destruct (classes !! i) as [l|] eqn:Hl; [|done].
    destruct (default unknown_info (disease_info !! l) !! "definition"); [|done].
    destruct (default unknown_info (disease_info !! l) !! "color"); [|done].
    destruct (default unknown_info (disease_info !! l) !! "health_status"); [|done].
    simpl. rewrite lookup_insert_eq. intros [= ->].
    by exists file, img, i.
  - by rewrite (predict_undecoded s req file).
Qed.

(** C8.  The label [/predict] returns is the class at the first maximal
    score of the network on the preprocessed image; no sequence of
    requests changes the model; and two accepted uploads that decode to
    the same image, served any number of requests apart, get the same
    label. *)
Theorem predict_argmax_deterministic (s : state) :
  (∀ e req label,
     field (handle Predict e req s).1 "result" = Some (PVal (VStr label)) →
     ∃ file img i,
       files req !! "image" = Some file ∧
       Image_open (stream file) = Some img ∧
       first_maximum (scores s img) i ∧
       classes !! i = Some label) ∧
  (∀ tr, model (serve tr s) = model s) ∧
  (∀ tr e1 e2 req1 req2 file1 file2 img,
     length (scores s img) = length classes →
     files req1 !! "image" = Some file1 →
     files req2 !! "image" = Some file2 →
     allowed_file (filename file1) = true →
     allowed_file (filename file2) = true →
     Image_open (stream file1) = Some img →
     Image_open (stream file2) = Some img →
     ∃ label,
       label ∈ classes ∧
       field (handle Predict e1 req1 s).1 "result" = Some (PVal (VStr label)) ∧
       field (handle Predict e2 req2 (serve tr s)).1 "result" = Some (PVal (VStr label))).
Proof.
  split; [|split].
  - intros e req label Hres.
    destruct (predict_result_inv s e req label Hres)
      as (file & img & i & Hfile & _ & Himg & Hi & Hl).
    exists file, img, i. by auto using argmax_first_maximum.
  - intros tr. apply serve_keeps_globals.
  - intros tr e1 e2 req1 req2 file1 file2 img Hshape Hf1 Hf2 Hok1 Hok2 Hi1 Hi2.
    assert (∀ x, scores (serve tr s) x = scores s x) as Hsame.
    { intros x. unfold scores. by rewrite (proj1 (serve_keeps_globals tr s)). }
    destruct (predict_labelled s req1 file1 img Hshape Hf1 Hok1 Hi1)
      as (i & label & o1 & Hi & Hl & Ho1 & _ & _ & Hr1).
    destruct (predict_labelled (serve tr s) req2 file2 img) as
      (i' & label' & o2 & Hi' & Hl' & Ho2 & _ & _ & Hr2); [by rewrite Hsame|done..|].
    rewrite Hsame, Hi in Hi'. injection Hi' as <-.
    rewrite Hl in Hl'. injection Hl' as <-.
    exists label. split; [by eapply list_elem_of_lookup_2|].
    unfold handle, run_view.
    destruct (predict req1 s) as [[?|?] ?]; simpl in Ho1; [done|].
    injection Ho1 as ->.
    destruct (predict req2 (serve tr s)) as [[?|?] ?]; simpl in Ho2; [done|].
    by injection Ho2 as ->.
Qed.

End PredictProperties.

(** ** [/users] *)

Section UsersProperties.

Context {bcrypt_lib : Bcrypt} {werkzeug_lib : Werkzeug}
        {pillow_lib : Pillow} {torch_lib : Torch image}.

Lemma listed_shows d :
  shows (listed {| _id := _id d; fields := delete "password" (fields d) |}) d.
Proof.
  unfold shows, listed. simpl. split; [by rewrite lookup_insert_eq|]. split.
  - rewrite lookup_insert_ne by done. by rewrite lookup_delete_eq.
  - intros k Hk1 Hk2. rewrite lookup_insert_ne by done.
    by rewrite lookup_delete_ne.
Qed.

Lemma get_users_view_listing s :
  ∃ o, get_users_view s = (inr o, s) ∧ status_code o = 200%nat ∧ user_listing s o.
Proof.
  eexists. split; [reflexivity|]. split; [done|]. split.
  - unfold field. rewrite lookup_insert_eq.
    unfold Collection.find_all_without. by rewrite !length_map.
  - exists (map listed (Collection.find_all_without "password" (users s))).
    split.
    + unfold field. rewrite lookup_insert_ne by done.
      by rewrite lookup_singleton_eq.
    + unfold Collection.find_all_without. rewrite map_map.
      induction (users s) as [|d c IH]; simpl; constructor; [|done].
      apply listed_shows.
Qed.

(** [/users] behind a header value that decodes. *)
Lemma get_users_decoded s e req t c :
  authorization req = Some t →
  jwt_decode t (JWT_SECRET s) (utcnow e) = Decoded c →
  ∃ o, handle Users e req s = (o, s) ∧
       status_code o = 200%nat ∧ user_listing s o.
Proof.
  intros Hauth Hdec. unfold handle, run_view, get_users, login_required.
  rewrite Hauth. assert (token_truthy t = true) as -> by by destruct t.
  simpl. unfold bind, gets. simpl. rewrite Hdec.
  destruct (get_users_view_listing s) as (o & -> & ? & ?). by exists o.
Qed.

(** C2 (amended).  [/users] answers 401 when the [Authorization] header
    is absent or empty; otherwise the raw header value is decoded: 403 when
    it is an expired token, 403 when it is invalid in any other way (a
    token behind a "Bearer " prefix included), and 200 with [count] and
    the password-free listing of every record when it is a valid
    unexpired token under the shared secret. *)
Theorem get_users_responses (s : state) (e : env) (req : request) :
  let o := (handle Users e req s).1 in
  match authorization req with
  | None => status_code o = 401%nat ∧ is_error o
  | Some t =>
      if token_truthy t then
        match jwt_decode t (JWT_SECRET s) (utcnow e) with
        | ExpiredSignatureError => status_code o = 403%nat ∧ is_error o
        | InvalidTokenError => status_code o = 403%nat ∧ is_error o
        | Decoded _ => status_code o = 200%nat ∧ user_listing s o
        end ∧
        (∀ t', t = Bearer t' → status_code o = 403%nat)
      else t = Opaque "" ∧ status_code o = 401%nat ∧ is_error o
  end.
Proof.
  cbv zeta. unfold handle, run_view, get_users, login_required.
  destruct (authorization req) as [t|];
    [|by split; [|apply error_response_is_error]].
  destruct (token_truthy t) eqn:Ht; simpl.
  - unfold bind, gets. simpl. split.
    + destruct (jwt_decode t (JWT_SECRET s) (utcnow e));
        try by split; [|apply error_response_is_error].
      destruct (get_users_view_listing s) as (o & -> & ? & ?). done.
    + by intros t' ->.
  - split; [|by split; [|apply error_response_is_error]].
    destruct t as [str| |]; simpl in Ht; try done.
    apply negb_false_iff, String.eqb_eq in Ht. by subst.
Qed.

(** C10.  With a valid unexpired token the listing has one entry per
    record, and each entry carries the record's email, both security
    answers, creation time and name as stored, its identifier as text,
    and every other stored field; the password is the one field left
    out. *)
Theorem users_listing_exposes (s : state) (e : env) (req : request) t c :
  authorization req = Some t →
  jwt_decode t (JWT_SECRET s) (utcnow e) = Decoded c →
  let o := (handle Users e req s).1 in
  status_code o = 200%nat ∧
  ∃ entries,
    field o "users" = Some (PList (map (λ u, PDict (PVal <$> u)) entries)) ∧
    length entries = length (users s) ∧
    ∀ i d, users s !! i = Some d →
      ∃ entry, entries !! i = Some entry ∧
        entry !! "email" = fields d !! "email" ∧
        entry !! "q1" = fields d !! "q1" ∧
        entry !! "q2" = fields d !! "q2" ∧
        entry !! "createdAt" = fields d !! "createdAt" ∧
        entry !! "name" = fields d !! "name" ∧
        entry !! "_id" = Some (VStr (ObjectId.str (_id d))) ∧
        entry !! "password" = None ∧
        (∀ k, k ≠ "_id" → k ≠ "password" → entry !! k = fields d !! k).
Proof.
  intros Hauth Hdec. cbv zeta.
  destruct (get_users_decoded s e req t c Hauth Hdec)
    as (o & -> & Hst & _ & entries & Hf & Hall). simpl.
  split; [done|]. exists entries. split; [done|].
  split; [by eapply Forall2_length|].
  intros i d Hd.
  destruct (Forall2_lookup_r _ _ _ _ _ Hall Hd) as (entry & He & Hid & Hpw & Hrest).
  exists entry. split; [done|].
  rewrite !Hrest by done. done.
Qed.

End UsersProperties.

(** ** [/register] *)

Section CollectionFacts.

Lemma find_one_None k v c :
  Collection.find_one k v c = None ↔
  ∀ d, d ∈ c → Collection.filter_eq k v d = false.
Proof.
  unfold Collection.find_one. induction c as [|d c IH]; simpl.
  - split; [|done]. intros _ d Hd. by apply elem_of_nil in Hd.
  - destruct (Collection.filter_eq k v d) eqn:E.
    + split; [done|]. intros Hall. rewrite Hall in E; [done|]. by left.
    + rewrite IH. split.
      * intros Hall d' [->|Hd']%elem_of_cons; auto.
      * intros Hall d' Hd'. apply Hall. by right.
Qed.

Lemma find_one_Some k v c d :
  Collection.find_one k v c = Some d →
  d ∈ c ∧ Collection.filter_eq k v d = true.
Proof.
  unfold Collection.find_one. induction c as [|d' c IH]; simpl; [done|].
  destruct (Collection.filter_eq k v d') eqn:E.
  - intros [= ->]. split; [by left|done].
  - intros [Hin Hd]%IH. split; [by right|done].
Qed.


End CollectionFacts.

Section RegisterProperties.

Context {bcrypt_lib : Bcrypt} {werkzeug_lib : Werkzeug}
        {pillow_lib : Pillow} {torch_lib : Torch image}.

Lemma register_conflict s e req data email :
  json req = Some data → data !! "email" = Some email →
  Bson.encodable email = true →
  is_Some (Collection.find_one "email" email (users s)) →
  register e req s = (inr (error_response "Email already exists" 400), s).
Proof.
  intros Hjson%json_Some Hemail Henc [d Hd]. unfold_views.
  rewrite Hjson. reduce_view. rewrite Hemail. reduce_view.
  rewrite Henc. reduce_view. by rewrite Hd.
Qed.



End RegisterProperties.

(** ** Transitions and invariants of the collection *)

Section Transitions.

Context {bcrypt_lib : Bcrypt} {werkzeug_lib : Werkzeug}
        {pillow_lib : Pillow} {torch_lib : Torch image}.

Lemma step_store_step ev s : store_step ev s (step s ev).
Proof.
  destruct ev as [[r e] req]. destruct r; run_views;
    try (by apply store_same).
  - eapply store_insert;
      [done|by apply json_Some|eassumption| |eassumption|reflexivity|done].
    by rewrite lookup_insert_ne, lookup_insert_eq.
  - by eapply store_update.
  - by eapply store_delete.
Qed.

(** *** Invariants of the collection *)

Lemma filter_eq_email v d :
  Collection.filter_eq "email" v d = bool_decide (email_of d = v).
Proof. done. Qed.

Lemma filter_eq_id oid d :
  Collection.filter_eq "_id" (VObjectId oid) d = bool_decide (_id d = oid).
Proof.
  unfold Collection.filter_eq, Collection.getitem. simpl.
  apply bool_decide_ext. split; congruence.
Qed.

Lemma update_one_ids k v f x c :
  map _id (Collection.update_one k v f x c) = map _id c.
Proof.
  induction c as [|d c IH]; simpl; [done|].
  destruct (Collection.filter_eq k v d); simpl; by rewrite ?IH.
Qed.

Lemma update_one_emails k v x c :
  map email_of (Collection.update_one k v "password" x c) = map email_of c.
Proof.
  induction c as [|d c IH]; simpl; [done|].
  destruct (Collection.filter_eq k v d); simpl; [|by rewrite IH].
  f_equal. unfold email_of, Collection.getitem. simpl.
  by rewrite lookup_insert_ne.
Qed.

Lemma delete_one_sublist k v c : sublist (Collection.delete_one k v c) c.
Proof.
  induction c as [|d c IH]; simpl; [done|].
  destruct (Collection.filter_eq k v d); [by apply sublist_cons|].
  by apply sublist_skip.
Qed.

Lemma find_one_None_email v c :
  Collection.find_one "email" v c = None ↔ v ∉ map email_of c.
Proof.
  rewrite find_one_None. rewrite list_elem_of_fmap. split.
  - intros Hall (d & -> & Hd). specialize (Hall d Hd).
    rewrite filter_eq_email in Hall. by apply bool_decide_eq_false in Hall.
  - intros Hno d Hd. rewrite filter_eq_email. apply bool_decide_eq_false.
    intros <-. apply Hno. by exists d.
Qed.

Lemma step_store_ok ev s : store_ok s → store_ok (step s ev).
Proof.
  intros (Hids & Hemails & Hbound).
  destruct (step_store_step ev s) as
    [Hu Hn|e req data email doc -> Hj He Hd Hnone Hu Hn|email hashed Hu Hn|oid Hu Hn];
    unfold store_ok; rewrite Hu, Hn.
  - done.
  - rewrite !map_app. simpl. split; [|split].
    + apply NoDup_app. split; [done|]. split; [|apply NoDup_singleton].
      intros oid Hin Heq%list_elem_of_singleton.
      rewrite Forall_forall in Hbound. specialize (Hbound oid Hin). lia.
    + apply NoDup_app. split; [done|]. split; [|apply NoDup_singleton].
      intros v Hv ->%list_elem_of_singleton.
      apply find_one_None_email in Hnone. apply Hnone.
      unfold email_of, Collection.getitem in Hv. simpl in Hv.
      by rewrite Hd in Hv.
    + apply Forall_app. split.
      * eapply Forall_impl; [done|]. simpl. intros; lia.
      * apply Forall_singleton. simpl. lia.
  - by rewrite update_one_ids, update_one_emails.
  - pose proof (delete_one_sublist "_id" (VObjectId oid) (users s)) as Hsub.
    split; [|split].
    + apply (sublist_NoDup _ _ Hids). by apply fmap_sublist.
    + apply (sublist_NoDup _ _ Hemails). by apply fmap_sublist.
    + rewrite Forall_forall in Hbound. apply Forall_forall. intros x Hx.
      apply Hbound. eapply sublist_subseteq; [|done]. by apply fmap_sublist.
Qed.

(** The invariant holds of an empty collection and of every state served
    from one where it holds. *)
Lemma store_ok_empty s : users s = [] → store_ok s.
Proof. intros Hu. unfold store_ok. rewrite Hu. simpl. by repeat constructor. Qed.

Lemma serve_store_ok tr s : store_ok s → store_ok (serve tr s).
Proof.
  revert s. induction tr as [|ev tr IH]; intros s Hs; simpl; [done|].
  by apply IH, step_store_ok.
Qed.

End Transitions.

(** ** [/forgot-password] *)

Section CollectionSplits.

(** The first match of a filter splits the collection around it. *)
Lemma find_one_split k v c u :
  Collection.find_one k v c = Some u →
  ∃ pre post,
    c = pre ++ u :: post ∧
    Collection.filter_eq k v u = true ∧
    ∀ d, d ∈ pre → Collection.filter_eq k v d = false.
Proof.
  unfold Collection.find_one. induction c as [|d c IH]; simpl; [done|].
  destruct (Collection.filter_eq k v d) eqn:E.
  - intros [= ->]. exists [], c. split; [done|]. split; [done|].
    intros d Hd. by apply elem_of_nil in Hd.
  - intros (pre & post & -> & Hu & Hpre)%IH.
    exists (d :: pre), post. split; [done|]. split; [done|].
    intros d' [->|Hd']%elem_of_cons; auto.
Qed.

Lemma update_one_split k v f x pre u post :
  Collection.filter_eq k v u = true →
  (∀ d, d ∈ pre → Collection.filter_eq k v d = false) →
  Collection.update_one k v f x (pre ++ u :: post) =
    pre ++ {| _id := _id u; fields := <[f := x]> (fields u) |} :: post.
Proof.
  intros Hu Hpre. induction pre as [|d pre IH]; simpl.
  - by rewrite Hu.
  - rewrite (Hpre d) by by left. f_equal. apply IH.
    intros d' Hd'. apply Hpre. by right.
Qed.


End CollectionSplits.

Section ForgotPasswordProperties.

Context {bcrypt_lib : Bcrypt} {werkzeug_lib : Werkzeug}
        {pillow_lib : Pillow} {torch_lib : Torch image}.



End ForgotPasswordProperties.

(** ** [/login] *)

Section LoginProperties.

Context {bcrypt_lib : Bcrypt} {werkzeug_lib : Werkzeug}
        {pillow_lib : Pillow} {torch_lib : Torch image}.


(** C5.  Every token in a [/login] response is the signature, under the
    shared secret, of the claims userId (the identifier of the record found
    for the email, as text), name (that record's name) and exp (the clock at
    issuance plus 7200 s), in a 200 response; and [/users] answers 200 to
    that token at every clock reading before exp, after any sequence of
    requests and whatever the collection then holds (the record may be
    gone); after exp the answer is 403. *)
Theorem login_token_lifetime (s : state) (e : env) (req : request)
    (issued : pyobj) :
  let o := (handle Login e req s).1 in
  let s' := (handle Login e req s).2 in
  field o "token" = Some issued →
  ∃ data email user uname,
    json req = Some data ∧
    data !! "email" = Some email ∧
    Collection.find_one "email" email (users s) = Some user ∧
    fields user !! "name" = Some uname ∧
    let token :=
      Jws {| userId := ObjectId.str (_id user); name := uname;
             exp := utcnow e + 2 * 3600 |} (JWT_SECRET s) in
    issued = PToken token ∧
    status_code o = 200%nat ∧
    (∀ tr e' req',
       authorization req' = Some token →
       utcnow e' < utcnow e + 2 * 3600 →
       status_code (handle Users e' req' (serve tr s')).1 = 200%nat) ∧
    (∀ s'' e' req',
       JWT_SECRET s'' = JWT_SECRET s →
       authorization req' = Some token →
       utcnow e' < utcnow e + 2 * 3600 →
       status_code (handle Users e' req' s'').1 = 200%nat) ∧
    (∀ tr e' req',
       authorization req' = Some token →
       utcnow e + 2 * 3600 < utcnow e' →
       status_code (handle Users e' req' (serve tr s')).1 = 403%nat).
Proof.
  cbv zeta.
  assert (∀ s'' e' req' uid uname,
    JWT_SECRET s'' = JWT_SECRET s →
    authorization req' =
      Some (Jws {| userId := uid; name := uname; exp := utcnow e + 2 * 3600 |}
              (JWT_SECRET s)) →
    utcnow e' < utcnow e + 2 * 3600 →
    status_code (handle Users e' req' s'').1 = 200%nat) as Hvalid.
  { intros s'' e' req' uid uname Hsecret Hauth Hnow.
    edestruct (get_users_decoded s'' e' req') as (o & -> & Hst & _); [done| |done].
    simpl. rewrite Hsecret, String.eqb_refl.
    destruct (Z.leb_spec (utcnow e + 2 * 3600) (utcnow e')); [lia|done]. }
  run_views; try discriminate;
    try (by rewrite field_error_response_other).
  unfold field. rewrite lookup_insert_ne by done. rewrite lookup_insert_eq.
  intros [= <-].
  match goal with
  | Hj : body req = Parsed (JObject ?d), He : ?d !! "email" = Some ?v,
    Hf : Collection.find_one "email" ?v _ = Some ?u,
    Hn : Collection.getitem ?u "name" = Some ?n |- _ =>
      exists d, v, u, n; apply json_Some in Hj
  end.
  do 6 (split; [done|]). split; [|split].
  - intros tr e' req' Hauth Hnow. eapply Hvalid; [|done..].
    apply serve_keeps_globals.
  - intros s'' e' req' Hsecret Hauth Hnow. by eapply Hvalid.
  - intros tr e' req' Hauth Hnow. unfold_views. rewrite Hauth.
    cbn [token_truthy]. reduce_view. cbn [jwt_decode exp].
    rewrite (proj2 (serve_keeps_globals tr s)), String.eqb_refl.
    destruct (Z.leb_spec (utcnow e + 2 * 3600) (utcnow e')); [done|lia].
Qed.

End LoginProperties.

(** ** [/delete] and field validation *)

Section DeleteProperties.

Context {bcrypt_lib : Bcrypt} {werkzeug_lib : Werkzeug}
        {pillow_lib : Pillow} {torch_lib : Torch image}.






(** C7 on the code.  With a body that is an empty JSON object,
    [/register] and [/login] raise [KeyError] and are answered 500;
    [/delete], which does check its fields, is answered 400;
    [/forgot-password] checks nothing: the one 400 it can be answered with
    is Flask's own page for a body that does not parse.  [/register]
    without a password and [/login] of a known user without one raise as
    well (the lookup raising first for an email that is an integer outside
    64 bits). *)
Theorem missing_fields_not_validated (s : state) (e : env) :
  let post data :=
    {| files := ∅; body := Parsed (JObject data); authorization := None |} in
  (handle Register e (post ∅) s).1 = InternalServerError (KeyError "email") ∧
  (handle Login e (post ∅) s).1 = InternalServerError (KeyError "email") ∧
  (∀ req, status_code (handle ForgotPassword e req s).1 = 400%nat →
     body req = Malformed ∧ (handle ForgotPassword e req s).1 = ErrorPage 400) ∧
  (∀ req j, body req = Parsed j →
     status_code (handle ForgotPassword e req s).1 ≠ 400%nat) ∧
  (handle DeleteAccount e (post ∅) s).1 =
    error_response "Email and password required" 400 ∧
  (∀ email,
     Collection.find_one "email" email (users s) = None →
     (handle Register e (post {[ "email" := email ]}) s).1 =
       InternalServerError
         (if Bson.encodable email then KeyError "password" else OverflowError)) ∧
  (∀ email user,
     Collection.find_one "email" email (users s) = Some user →
     (handle Login e (post {[ "email" := email ]}) s).1 =
       InternalServerError
         (if Bson.encodable email then KeyError "password" else OverflowError)).
Proof.
  cbv zeta. split; [|split; [|split; [|split; [|split; [|split]]]]].
  - unfold_views. cbn [body]. reduce_view. by rewrite lookup_empty.
  - unfold_views. cbn [body]. reduce_view. by rewrite lookup_empty.
  - intros req. run_views; try (intros Hst; discriminate Hst). done.
  - intros req j Hbody. unfold_views. rewrite Hbody. reduce_view.
    repeat (split_match; reduce_view); done.
  - unfold_views. cbn [body]. reduce_view. cbn [json_truthy].
    by rewrite bool_decide_eq_true_2.
  - intros email Hnone. unfold_views. cbn [body]. reduce_view.
    rewrite lookup_singleton_eq. reduce_view.
    destruct (Bson.encodable email); reduce_view; [|done].
    rewrite Hnone. by rewrite lookup_singleton_ne.
  - intros email user Hfound. unfold_views. cbn [body]. reduce_view.
    rewrite lookup_singleton_eq. reduce_view.
    destruct (Bson.encodable email); reduce_view; [|done].
    rewrite Hfound. by rewrite lookup_singleton_ne.
Qed.

End DeleteProperties.

(** ** What the views leave alone *)

Section ViewFrames.

Context {bcrypt_lib : Bcrypt} {werkzeug_lib : Werkzeug}
        {pillow_lib : Pillow} {torch_lib : Torch image}.

(** X1.  [/login], [/users] and [/] write nothing: whatever the request and
    whatever the answer, the process state after is the state before. *)
Theorem read_only_views (e : env) (req : request) (s : state) :
  (handle Login e req s).2 = s ∧
  (handle Users e req s).2 = s ∧
  (handle Index e req s).2 = s.
Proof. split; [|split]; run_views; done. Qed.


(** X3.  An upload whose name passes [allowed_file] is on disk after the
    request, under the upload folder and its secured name, with exactly the
    uploaded bytes, whether or not it decodes; no other file and no user
    record changes; and a 200 answer gives the URL of that file. *)
Theorem predict_saves_upload (s : state) (e : env) (req : request)
    (file : FileStorage) :
  files req !! "image" = Some file →
  allowed_file (filename file) = true →
  let o := (handle Predict e req s).1 in
  let s' := (handle Predict e req s).2 in
  let fname := secure_filename (filename file) in
  uploads s' !! path_join UPLOAD_FOLDER fname = Some (stream file) ∧
  (∀ p, p ≠ path_join UPLOAD_FOLDER fname → uploads s' !! p = uploads s !! p) ∧
  users s' = users s ∧
  (status_code o = 200%nat →
   field o "image_url" = Some (PVal (VStr ("/static/uploads/" +:+ fname)))).
Proof.
  intros Hfile Hok. cbv zeta. unfold_views. rewrite Hfile, Hok. reduce_view.
  rewrite lookup_insert_eq. reduce_view.
  repeat (split_match; reduce_view);
    (split; [apply lookup_insert_eq|]);
    (split; [by intros p Hp; rewrite lookup_insert_ne|]);
    (split; [done|]); try (intros Hst; discriminate Hst).
  intros _. unfold field. rewrite !lookup_insert_ne by done.
  apply lookup_singleton_eq.
Qed.

(** X4.  [/predict] never touches the user collection, and a request it
    answers 400 (no [image] field, or a refused file name) writes nothing
    at all. *)
Theorem predict_keeps_collection (e : env) (req : request) (s : state) :
  let o := (handle Predict e req s).1 in
  let s' := (handle Predict e req s).2 in
  users s' = users s ∧ next_oid s' = next_oid s ∧
  (status_code o = 400%nat → s' = s).
Proof.
  cbv zeta. run_views; (split; [done|]); (split; [done|]);
    try done; by intros [=].
Qed.

(** One served request either leaves the upload folder as it was or writes
    one file. *)
Lemma step_uploads ev s :
  uploads (step s ev) = uploads s ∨
  ∃ p bytes, uploads (step s ev) = <[p := bytes]> (uploads s).
Proof.
  destruct ev as [[r e] req]. destruct r; run_views; eauto.
Qed.

(** X5.  Only [/predict] writes to the upload folder, and nothing ever
    removes a file from it: a path that holds a file still holds one after
    any sequence of requests. *)
Theorem uploads_only_grow (s : state) :
  (∀ r e req, r ≠ Predict → uploads (handle r e req s).2 = uploads s) ∧
  (∀ tr p, is_Some (uploads s !! p) → is_Some (uploads (serve tr s) !! p)).
Proof.
  split.
  - intros r e req Hr. destruct r; try done; run_views; done.
  - intros tr. revert s. induction tr as [|ev tr IH]; intros s p Hp; [done|].
    simpl. apply IH.
    destruct (step_uploads ev s) as [->|(q & bytes & ->)]; [done|].
    destruct (decide (q = p)) as [->|Hne].
    + rewrite lookup_insert_eq. by eexists.
    + by rewrite lookup_insert_ne.
Qed.

End ViewFrames.

(** ** The collection across requests *)

Section CollectionInvariant.

Context {bcrypt_lib : Bcrypt} {werkzeug_lib : Werkzeug}
        {pillow_lib : Pillow} {torch_lib : Torch image}.

(** X6.  Served from an empty collection, one request after the other, the
    collection never holds two records with the same email or the same
    identifier. *)
Theorem emails_identify_records (tr : list event) (s : state) :
  users s = [] →
  ∀ i j d1 d2,
    users (serve tr s) !! i = Some d1 →
    users (serve tr s) !! j = Some d2 →
    email_of d1 = email_of d2 ∨ _id d1 = _id d2 →
    i = j.
Proof.
  intros Hempty i j d1 d2 H1 H2 Hsame.
  destruct (serve_store_ok tr s (store_ok_empty s Hempty)) as (Hids & Hemails & _).
  destruct Hsame as [Heq|Heq].
  - eapply (NoDup_lookup _ i j (email_of d1) Hemails);
      rewrite list_lookup_fmap; [by rewrite H1|by rewrite H2, Heq].
  - eapply (NoDup_lookup _ i j (_id d1) Hids);
      rewrite list_lookup_fmap; [by rewrite H1|by rewrite H2, Heq].
Qed.

End CollectionInvariant.

(** ** Credentials: round trips and what a success requires *)

Section Credentials.

Context {bcrypt_lib : Bcrypt} {werkzeug_lib : Werkzeug}
        {pillow_lib : Pillow} {torch_lib : Torch image}.

Lemma find_one_middle k v pre u post :
  (∀ d, d ∈ pre → Collection.filter_eq k v d = false) →
  Collection.filter_eq k v u = true →
  Collection.find_one k v (pre ++ u :: post) = Some u.
Proof.
  intros Hpre Hu. unfold Collection.find_one.
  induction pre as [|d pre IH]; simpl; [by rewrite Hu|].
  rewrite (Hpre d) by by left. apply IH. intros d' Hd'. apply Hpre. by right.
Qed.

(** A 200 from [/register] means the body had every field, the email was
    free, bcrypt hashed the password and the record went in. *)
Lemma register_ok_inv s e req :
  status_code (handle Register e req s).1 = 200%nat →
  ∃ data name email q1 q2 password hashed,
    json req = Some data ∧
    data !! "email" = Some email ∧
    data !! "password" = Some (VStr password) ∧
    data !! "name" = Some name ∧
    data !! "q1" = Some q1 ∧
    data !! "q2" = Some q2 ∧
    Bson.encodable email = true ∧
    Collection.find_one "email" email (users s) = None ∧
    hashpw password (gensalt e) = Some hashed ∧
    (handle Register e req s).2 =
      set_next_oid (N.succ (next_oid s))
        (set_users (users s ++ [{| _id := next_oid s;
                                   fields := new_user e name email q1 q2 hashed |}])
           s).
Proof.
  run_views; try (intros Hst; discriminate Hst). intros _.
  match goal with
  | Hj : body req = Parsed (JObject ?d), He : ?d !! "email" = Some ?v,
    Hp : ?d !! "password" = Some (VStr ?p), Hn : ?d !! "name" = Some ?n,
    H1 : ?d !! "q1" = Some ?a, H2 : ?d !! "q2" = Some ?b,
    Hh : hashpw ?p _ = Some ?h |- _ =>
      exists d, n, v, a, b, p, h; apply json_Some in Hj
  end.
  by repeat split.
Qed.

(** [/login] with a password that verifies. *)
Lemma login_ok s e req data email password user hashed uname :
  json req = Some data →
  data !! "email" = Some email →
  data !! "password" = Some (VStr password) →
  Bson.encodable email = true →
  Collection.find_one "email" email (users s) = Some user →
  Collection.getitem user "password" = Some (VBytes hashed) →
  Collection.getitem user "name" = Some uname →
  checkpw password hashed = Some true →
  status_code (handle Login e req s).1 = 200%nat.
Proof.
  intros Hjson%json_Some Hemail Hpw Henc Hfound Hhash Hname Hck. unfold_views.
  rewrite Hjson. reduce_view. rewrite Hemail. reduce_view.
  rewrite Henc. reduce_view.
  rewrite Hfound, Hpw. reduce_view. rewrite Hhash. reduce_view.
  rewrite Hck. reduce_view. by rewrite Hname.
Qed.

(** [/login] with a password that does not verify. *)
Lemma login_wrong_password s e req data email password user hashed :
  json req = Some data →
  data !! "email" = Some email →
  data !! "password" = Some (VStr password) →
  Bson.encodable email = true →
  Collection.find_one "email" email (users s) = Some user →
  Collection.getitem user "password" = Some (VBytes hashed) →
  checkpw password hashed = Some false →
  handle Login e req s = (error_response "Invalid email or password" 401, s).
Proof.
  intros Hjson%json_Some Hemail Hpw Henc Hfound Hhash Hck. unfold_views.
  rewrite Hjson. reduce_view. rewrite Hemail. reduce_view.
  rewrite Henc. reduce_view.
  rewrite Hfound, Hpw. reduce_view. rewrite Hhash. reduce_view.
  by rewrite Hck.
Qed.

(** X7.  Register, then log in: when [/register] answers 200 and bcrypt
    verifies the password against the hash it has just made, [/login] with
    the same body is answered 200 and a second [/register] with it 400. *)
Theorem register_then_login (s : state) (e e' : env) (req : request)
    (data : gmap string value) (password : string) :
  json req = Some data →
  data !! "password" = Some (VStr password) →
  status_code (handle Register e req s).1 = 200%nat →
  (∀ hashed, hashpw password (gensalt e) = Some hashed →
             checkpw password hashed = Some true) →
  let s' := (handle Register e req s).2 in
  status_code (handle Login e' req s').1 = 200%nat ∧
  status_code (handle Register e' req s').1 = 400%nat.
Proof.
  intros Hjson Hpw Hst Hck. cbv zeta.
  destruct (register_ok_inv s e req Hst)
    as (data' & name & email & q1 & q2 & pw & hashed & Hjson' & Hemail & Hpw'
        & Hname & Hq1 & Hq2 & Henc & Hnone & Hhash & ->).
  rewrite Hjson in Hjson'. injection Hjson' as <-.
  rewrite Hpw in Hpw'. injection Hpw' as <-.
  set (u := {| _id := next_oid s; fields := new_user e name email q1 q2 hashed |}).
  assert (Collection.filter_eq "email" email u = true) as Hu.
  { unfold Collection.filter_eq, Collection.getitem, u, new_user. simpl.
    rewrite lookup_insert_ne by done. rewrite lookup_insert_eq. simpl.
    by apply bool_decide_eq_true. }
  assert (Collection.find_one "email" email
            (users (set_next_oid (N.succ (next_oid s))
                      (set_users (users s ++ [u]) s))) = Some u) as Hfound.
  { simpl. apply find_one_middle; [|done]. by apply find_one_None. }
  split.
  - by eapply (login_ok _ e' req data email password u); eauto.
  - unfold handle, run_view.
    by rewrite (register_conflict _ e' req data email).
Qed.

(** A 200 from [/forgot-password] means a record matched the email, both
    stored answers compared equal to the supplied ones, the new password
    was text and bcrypt hashed it. *)
Lemma forgot_ok_inv s e req :
  status_code (handle ForgotPassword e req s).1 = 200%nat →
  ∃ data user a1 a2 new_pass hashed,
    json req = Some data ∧
    Bson.encodable (default VNone (data !! "email")) = true ∧
    Collection.find_one "email" (default VNone (data !! "email")) (users s)
      = Some user ∧
    Collection.getitem user "q1" = Some a1 ∧
    py_eq a1 (default VNone (data !! "q1")) = true ∧
    Collection.getitem user "q2" = Some a2 ∧
    py_eq a2 (default VNone (data !! "q2")) = true ∧
    default VNone (data !! "newPass") = VStr new_pass ∧
    hashpw new_pass (gensalt e) = Some hashed ∧
    (handle ForgotPassword e req s).2 =
      set_users
        (Collection.update_one "email" (default VNone (data !! "email"))
           "password" (VBytes hashed) (users s)) s.
Proof.
  run_views; try (intros Hst; discriminate Hst). intros _.
  match goal with
  | Hj : body req = Parsed (JObject ?d),
    Hf : Collection.find_one _ _ _ = Some ?u,
    H1 : Collection.getitem ?u "q1" = Some ?a,
    H2 : Collection.getitem ?u "q2" = Some ?b,
    Hn : default VNone (?d !! "newPass") = VStr ?p,
    Hh : hashpw ?p _ = Some ?h |- _ =>
      exists d, u, a, b, p, h; apply json_Some in Hj
  end.
  repeat match goal with
         | H : negb _ = false |- _ => apply negb_false_iff in H
         end.
  by repeat split.
Qed.

(** X8.  Reset, then log in: after [/forgot-password] answers 200,
    [/login] for that email is answered 200 with the new password when
    bcrypt verifies it against the hash just stored, and 401 with any
    password bcrypt does not verify against that hash (the old one, for
    instance). *)
Theorem reset_then_login (s : state) (e e' : env) (req req' : request)
    (data data' : gmap string value) (new_pass : string)
    (user : document) (uname : value) :
  json req = Some data →
  default VNone (data !! "newPass") = VStr new_pass →
  status_code (handle ForgotPassword e req s).1 = 200%nat →
  Collection.find_one "email" (default VNone (data !! "email")) (users s)
    = Some user →
  fields user !! "name" = Some uname →
  json req' = Some data' →
  data' !! "email" = Some (default VNone (data !! "email")) →
  let s' := (handle ForgotPassword e req s).2 in
  (data' !! "password" = Some (VStr new_pass) →
   (∀ hashed, hashpw new_pass (gensalt e) = Some hashed →
              checkpw new_pass hashed = Some true) →
   status_code (handle Login e' req' s').1 = 200%nat) ∧
  (∀ other,
     data' !! "password" = Some (VStr other) →
     (∀ hashed, hashpw new_pass (gensalt e) = Some hashed →
                checkpw other hashed = Some false) →
     status_code (handle Login e' req' s').1 = 401%nat).
Proof.
  intros Hjson Hnew Hst Hfound Hname Hjson' Hemail'. cbv zeta.
  destruct (forgot_ok_inv s e req Hst)
    as (d & u & a1 & a2 & np & hashed & Hj & Henc & Hf & _ & _ & _ & _ & Hnp
        & Hhash & ->).
  rewrite Hjson in Hj. injection Hj as <-.
  rewrite Hfound in Hf. injection Hf as <-.
  rewrite Hnew in Hnp. injection Hnp as <-.
  destruct (find_one_split _ _ _ _ Hfound) as (pre & post & Hc & Hu & Hpre).
  set (u' := {| _id := _id user;
                fields := <["password" := VBytes hashed]> (fields user) |}).
  assert (Collection.find_one "email" (default VNone (data !! "email"))
            (users (set_users
               (Collection.update_one "email" (default VNone (data !! "email"))
                  "password" (VBytes hashed) (users s)) s))
          = Some u') as Hfound'.
  { cbn [users set_users]. rewrite Hc.
    rewrite update_one_split by done. apply find_one_middle; [done|].
    unfold Collection.filter_eq, Collection.getitem, u' in *. simpl in *.
    by rewrite lookup_insert_ne. }
  assert (Collection.getitem u' "password" = Some (VBytes hashed)) as Hhash'.
  { unfold Collection.getitem, u'. simpl. by rewrite lookup_insert_eq. }
  assert (Collection.getitem u' "name" = Some uname) as Hname'.
  { unfold Collection.getitem, u'. simpl. by rewrite lookup_insert_ne. }
  split.
  - intros Hpw Hck. eapply login_ok; eauto.
  - intros other Hpw Hck. erewrite login_wrong_password; eauto.
Qed.

(** X9.  [/register] never writes an upload and never touches an existing
    record: unless it answers 200 the state is unchanged, and when it
    answers 200 the collection has grown by one record, appended with the
    driver's next identifier and exactly the six fields name, email,
    password, q1, q2 and createdAt. *)
Theorem register_appends_or_nothing (e : env) (req : request) (s : state) :
  let o := (handle Register e req s).1 in
  let s' := (handle Register e req s).2 in
  uploads s' = uploads s ∧
  (status_code o ≠ 200%nat → s' = s) ∧
  (status_code o = 200%nat →
   ∃ doc,
     users s' = users s ++ [{| _id := next_oid s; fields := doc |}] ∧
     next_oid s' = N.succ (next_oid s) ∧
     dom doc = ({[ "name"; "email"; "password"; "q1"; "q2"; "createdAt" ]}
                : gset string)).
Proof.
  cbv zeta. run_views; (split; [done|]);
    try (split; [done|intros Hst; discriminate Hst]).
  split; [done|]. intros _. eexists. split; [reflexivity|]. split; [done|].
  rewrite !dom_insert_L, dom_singleton_L. set_solver.
Qed.

Lemma update_one_password_only k v x c :
  Forall2 (λ d d', _id d' = _id d ∧
                   ∀ f, f ≠ "password" → fields d' !! f = fields d !! f)
    c (Collection.update_one k v "password" x c).
Proof.
  assert (∀ l, Forall2 (λ d d' : document, _id d' = _id d ∧
                 ∀ f, f ≠ "password" → fields d' !! f = fields d !! f) l l)
    as Hrefl by (induction l; by constructor).
  induction c as [|d c IH]; simpl; [constructor|].
  destruct (Collection.filter_eq k v d); constructor; auto.
  simpl. split; [done|]. intros f Hf. by rewrite lookup_insert_ne.
Qed.

(** X10.  [/forgot-password] can change nothing but a stored password:
    after any request the collection has the same records in the same
    order, each with its identifier and every field other than password as
    before; uploads and the identifier supply are untouched; and unless the
    answer is 200 the whole state is unchanged. *)
Theorem forgot_password_keeps_other_fields (e : env) (req : request) (s : state) :
  let o := (handle ForgotPassword e req s).1 in
  let s' := (handle ForgotPassword e req s).2 in
  Forall2 (λ d d', _id d' = _id d ∧
                   ∀ f, f ≠ "password" → fields d' !! f = fields d !! f)
    (users s) (users s') ∧
  uploads s' = uploads s ∧
  next_oid s' = next_oid s ∧
  (status_code o ≠ 200%nat → s' = s).
Proof.
  cbv zeta.
  pose proof (update_one_password_only "email") as Hupd.
  assert (Forall2 (λ d d' : document, _id d' = _id d ∧
            ∀ f, f ≠ "password" → fields d' !! f = fields d !! f)
            (users s) (users s)) as Hrefl
    by (induction (users s); by constructor).
  run_views; (split; [done || apply Hupd|]); (split; [done|]); (split; [done|]);
    done.
Qed.

(** X11.  [/forgot-password] answers 200 only when a record matches the
    email and both of its stored answers compare equal to the supplied
    q1 and q2. *)
Theorem forgot_password_requires_answers (e : env) (req : request) (s : state) :
  status_code (handle ForgotPassword e req s).1 = 200%nat →
  ∃ data user a1 a2,
    json req = Some data ∧
    Collection.find_one "email" (default VNone (data !! "email")) (users s)
      = Some user ∧
    fields user !! "q1" = Some a1 ∧
    fields user !! "q2" = Some a2 ∧
    py_eq a1 (default VNone (data !! "q1")) = true ∧
    py_eq a2 (default VNone (data !! "q2")) = true.
Proof.
  intros Hst.
  destruct (forgot_ok_inv s e req Hst)
    as (d & u & a1 & a2 & np & hashed & Hj & _ & Hf & H1 & He1 & H2 & He2 & _).
  by exists d, u, a1, a2.
Qed.

Lemma delete_one_length k v c d :
  d ∈ c → Collection.filter_eq k v d = true →
  length c = S (length (Collection.delete_one k v c)).
Proof.
  intros Hin Hd. induction c as [|d' c IH]; [by apply elem_of_nil in Hin|].
  simpl. destruct (Collection.filter_eq k v d') eqn:E; [done|].
  simpl. f_equal. apply IH. apply elem_of_cons in Hin as [->|Hin]; [|done].
  congruence.
Qed.

(** X12.  [/delete] removes a record only for a password that bcrypt
    verifies against the hash stored with the email: a 200 means such a
    record was found and exactly one record is gone, the others keeping
    their order; any other answer leaves the state unchanged. *)
Theorem delete_requires_password (e : env) (req : request) (s : state) :
  let o := (handle DeleteAccount e req s).1 in
  let s' := (handle DeleteAccount e req s).2 in
  (status_code o ≠ 200%nat → s' = s) ∧
  (status_code o = 200%nat →
   ∃ data email password user hashed,
     json req = Some data ∧
     data !! "email" = Some email ∧
     data !! "password" = Some (VStr password) ∧
     Collection.find_one "email" email (users s) = Some user ∧
     fields user !! "password" = Some (VBytes hashed) ∧
     checkpw password hashed = Some true ∧
     sublist (users s') (users s) ∧
     length (users s) = S (length (users s'))).
Proof.
  cbv zeta. run_views;
    try (split; [done|intros Hst; discriminate Hst]).
  split; [intros Hst; by destruct Hst|]. intros _.
  match goal with
  | Hj : body req = Parsed (JObject ?g), He : ?g !! "email" = Some ?v,
    Hp : ?g !! "password" = Some (VStr ?p),
    Hf : Collection.find_one "email" ?v _ = Some ?u,
    Hh : Collection.getitem ?u "password" = Some (VBytes ?h),
    Hc : checkpw ?p ?h = Some ?b, Hb : negb ?b = false |- _ =>
      exists g, v, p, u, h; apply json_Some in Hj;
      apply negb_false_iff in Hb; subst b;
      apply find_one_Some in Hf as Hin; destruct Hin as [Hin _]
  end.
  do 6 (split; [done|]). split; [apply delete_one_sublist|].
  eapply delete_one_length; [done|].
  rewrite filter_eq_id. by apply bool_decide_eq_true.
Qed.

(** X13.  [/login] answers 200 only for a password that bcrypt verifies
    against the hash stored with the email, and then returns that record's
    name; with a text password that does not verify, the answer is 401 and
    carries no token. *)
Theorem login_requires_password (e : env) (req : request) (s : state) :
  let o := (handle Login e req s).1 in
  (status_code o = 200%nat →
   ∃ data email password user hashed uname,
     json req = Some data ∧
     data !! "email" = Some email ∧
     data !! "password" = Some (VStr password) ∧
     Collection.find_one "email" email (users s) = Some user ∧
     fields user !! "password" = Some (VBytes hashed) ∧
     checkpw password hashed = Some true ∧
     fields user !! "name" = Some uname ∧
     field o "name" = Some (PVal uname)) ∧
  (∀ data email password user hashed,
     json req = Some data →
     data !! "email" = Some email →
     data !! "password" = Some (VStr password) →
     Collection.find_one "email" email (users s) = Some user →
     fields user !! "password" = Some (VBytes hashed) →
     checkpw password hashed = Some false →
     field o "token" = None ∧
     (Bson.encodable email = true → status_code o = 401%nat)).
Proof.
  cbv zeta. split.
  - run_views; try (intros Hst; discriminate Hst). intros _.
    match goal with
    | Hj : body req = Parsed (JObject ?g), He : ?g !! "email" = Some ?v,
      Hp : ?g !! "password" = Some (VStr ?p),
      Hf : Collection.find_one "email" ?v _ = Some ?u,
      Hh : Collection.getitem ?u "password" = Some (VBytes ?h),
      Hn : Collection.getitem ?u "name" = Some ?n,
      Hc : checkpw ?p ?h = Some ?b, Hb : negb ?b = false |- _ =>
        exists g, v, p, u, h, n; apply json_Some in Hj;
        apply negb_false_iff in Hb; subst b
    end.
    do 7 (split; [done|]). unfold field.
    rewrite !lookup_insert_ne by done. apply lookup_singleton_eq.
  - intros data email password user hashed Hjson Hemail Hpw Hfound Hhash Hck.
    assert (Collection.getitem user "password" = Some (VBytes hashed)) as Hg by done.
    destruct (Bson.encodable email) eqn:Henc.
    + rewrite (login_wrong_password s e req data email password user hashed)
        by done.
      cbn [fst]. split; [|done]. by rewrite field_error_response_other.
    + split; [|done]. apply json_Some in Hjson. unfold_views.
      rewrite Hjson. reduce_view. rewrite Hemail. reduce_view.
      by rewrite Henc.
Qed.

End Credentials.

(** ** Upload validation: stems and case *)

Section AllowedFileMore.

Lemma lower_ascii_dot a :
  Ascii.eqb (PyStr.lower_ascii a) "." = Ascii.eqb a ".".
Proof. by destruct a as [[] [] [] [] [] [] [] []]. Qed.

Lemma lower_ascii_idem a :
  PyStr.lower_ascii (PyStr.lower_ascii a) = PyStr.lower_ascii a.
Proof. by destruct a as [[] [] [] [] [] [] [] []]. Qed.

Lemma lower_idem s : PyStr.lower (PyStr.lower s) = PyStr.lower s.
Proof. induction s as [|a s IH]; simpl; [done|]. by rewrite lower_ascii_idem, IH. Qed.

Lemma contains_dot_lower s :
  PyStr.contains "." (PyStr.lower s) = PyStr.contains "." s.
Proof. induction s as [|a s IH]; simpl; [done|]. by rewrite lower_ascii_dot, IH. Qed.

Lemma rpartition_dot_lower s :
  PyStr.rpartition "." (PyStr.lower s) =
    match PyStr.rpartition "." s with
    | Some (pre, suf) => Some (PyStr.lower pre, PyStr.lower suf)
    | None => None
    end.
Proof.
  induction s as [|a s IH]; simpl; [done|]. rewrite IH.
  destruct (PyStr.rpartition "." s) as [[pre suf]|]; [done|].
  rewrite lower_ascii_dot. by destruct (Ascii.eqb a ".").
Qed.

(** X14.  [allowed_file] looks at nothing but the text after the last dot,
    and at that without regard to case: two names with the same final
    extension get the same verdict whatever precedes it, lowercasing a
    whole name does not change its verdict, and a name that ends in a dot
    is refused. *)
Theorem allowed_file_ignores_stem_and_case :
  (∀ stem1 stem2 ext,
     PyStr.contains "." ext = false →
     allowed_file (stem1 +:+ "." +:+ ext) = allowed_file (stem2 +:+ "." +:+ ext)) ∧
  (∀ filename, allowed_file (PyStr.lower filename) = allowed_file filename) ∧
  (∀ stem, allowed_file (stem +:+ ".") = false).
Proof.
  assert (∀ stem ext, PyStr.contains "." ext = false →
            allowed_file (stem +:+ "." +:+ ext)
            = bool_decide (PyStr.lower ext ∈ ALLOWED_EXTENSIONS)) as Hsplit.
  { intros stem ext Hext. unfold allowed_file, PyStr.rsplit1.
    change (stem +:+ "." +:+ ext) with (stem +:+ String "." ext).
    rewrite (rpartition_complete "." stem ext Hext), contains_app.
    simpl. by rewrite orb_true_r. }
  split; [|split].
  - intros stem1 stem2 ext Hext. by rewrite !Hsplit.
  - intros filename. unfold allowed_file, PyStr.rsplit1.
    rewrite contains_dot_lower, rpartition_dot_lower.
    destruct (PyStr.rpartition "." filename) as [[pre suf]|]; [|done].
    simpl. by rewrite lower_idem.
  - intros stem. change (stem +:+ ".") with (stem +:+ "." +:+ "").
    by rewrite (Hsplit stem "").
Qed.

End AllowedFileMore.

(** ** Accounts and labels *)

Section AccountsAndLabels.

Context {bcrypt_lib : Bcrypt} {werkzeug_lib : Werkzeug}
        {pillow_lib : Pillow} {torch_lib : Torch image}.

(** X15.  No account disappears except through [/delete]: unless the
    request is a [/delete] answered 200, the identifiers in the collection
    before the request are, in order, the first identifiers after it. *)
Theorem accounts_removed_only_by_delete (r : route) (e : env) (req : request)
    (s : state) :
  ¬ (r = DeleteAccount ∧ status_code (handle r e req s).1 = 200%nat) →
  map _id (users s) `prefix_of` map _id (users (handle r e req s).2).
Proof.
  destruct r; run_views; intros Hnot; try reflexivity.
  - unfold Collection.insert_one. rewrite map_app. by apply prefix_app_r.
  - by rewrite update_one_ids.
  - destruct Hnot. by split.
Qed.

(** X16.  The "Unknown disease." fallback is never used: whenever a
    [/predict] answer has a [result] field, that field is a class label
    with its own [disease_info] entry, and [definition], [color] and
    [healthy] come from that entry. *)
Theorem predict_result_always_from_table (e : env) (req : request) (s : state)
    (result : pyobj) :
  field (handle Predict e req s).1 "result" = Some result →
  labelled (handle Predict e req s).1 ∧
  ∃ label, result = PVal (VStr label) ∧ label ∈ classes ∧
           is_Some (disease_info !! label).
Proof.
  unfold handle, run_view.
  destruct (files req !! "image") as [file|] eqn:Hfile;
    [|by unfold predict; rewrite Hfile].
  destruct (allowed_file (filename file)) eqn:Hok;
    [|by unfold predict; rewrite Hfile, Hok].
  destruct (Image_open (stream file)) as [img|] eqn:Himg;
    [|by rewrite (predict_undecoded s req file)].
  rewrite (predict_decoded s req file img) by done. cbv zeta.
  destruct (argmax (scores s img)) as [i|]; [|done].
  destruct (classes !! i) as [label|] eqn:Hlabel; [|done].
  assert (label ∈ classes) as Hin by by eapply list_elem_of_lookup_2.
  destruct (disease_info_total label Hin) as (d & c & h & Hinfo).
  rewrite Hinfo. cbn [default from_option id].
  rewrite info_entry_definition, info_entry_color, info_entry_health.
  cbn [fst field]. rewrite lookup_insert_eq. intros [= <-]. split.
  - exists label, (info_entry d c h), (VStr d), (VStr c), (VStr h).
    rewrite info_entry_definition, info_entry_color, info_entry_health.
    do 5 (split; [done|]). unfold field.
    rewrite lookup_insert_eq.
    rewrite (lookup_insert_ne _ "result" "definition") by done.
    rewrite lookup_insert_eq.
    rewrite !(lookup_insert_ne _ _ "color") by done.
    rewrite lookup_insert_eq.
    rewrite !(lookup_insert_ne _ _ "healthy") by done.
    by rewrite lookup_insert_eq.
  - exists label. rewrite Hinfo. by eauto.
Qed.

End AccountsAndLabels.

(** ** The views on sample requests *)

Import Sample.

Lemma sample_shape : ∀ img, length (scores fresh img) = length classes.
Proof. intros img. reflexivity. Qed.

Lemma sample_upload_file name bytes :
  files (upload_request name bytes) !! "image" =
    Some {| filename := name; stream := bytes |}.
Proof. unfold upload_request. simpl. apply lookup_singleton_eq. Qed.

Lemma sample_registered_users :
  users registered =
    [{| _id := 0;
        fields := new_user (at_time 1000) (VStr "Alice") (VStr "alice@example.org")
                    (VStr "blue") (VStr "rex") "salt$hunter2" |}].
Proof. by vm_compute. Qed.

Lemma sample_find_alice :
  Collection.find_one "email" (VStr "alice@example.org") (users registered) =
    Some {| _id := 0;
            fields := new_user (at_time 1000) (VStr "Alice") (VStr "alice@example.org")
                        (VStr "blue") (VStr "rex") "salt$hunter2" |}.
Proof. by vm_compute. Qed.



(** C1 as stated fails: an upload named [leaf.png] whose bytes are not an
    image passes the extension check and is answered with a 500. *)
Lemma predict_undecodable_upload :
  ¬ predict_total_claim fresh (at_time 0) (upload_request "leaf.png" "").
Proof.
  unfold predict_total_claim. cbv zeta.
  rewrite sample_upload_file. cbn [filename].
  assert (allowed_file "leaf.png" = true) as -> by by vm_compute.
  assert ((handle Predict (at_time 0) (upload_request "leaf.png" "") fresh).1
          = InternalServerError UnidentifiedImageError) as -> by by vm_compute.
  intros [H _]. discriminate H.
Qed.

(** An upload named [leaf.png] with decodable bytes is answered 200. *)
Lemma predict_responses_witness :
  (∀ img, length (scores fresh img) = length classes) ∧
  status_code
    (handle Predict (at_time 0) (upload_request "leaf.png" "PNG-bytes") fresh).1
    = 200%nat.
Proof.
  split; [exact sample_shape|].
  pose proof (predict_responses fresh (at_time 0)
                (upload_request "leaf.png" "PNG-bytes")) as H.
  cbv zeta in H. rewrite sample_upload_file in H. cbn [filename stream] in H.
  assert (allowed_file "leaf.png" = true) as Hok by by vm_compute.
  assert (Image_open "PNG-bytes" = Some "PNG-bytes") as Himg by reflexivity.
  rewrite Hok, Himg in H. exact (proj1 (H (sample_shape _))).
Defined.

(** C2 as stated fails: an [Authorization] header that is present but empty
    is not a valid token, and is answered with 401, not 403. *)
Lemma get_users_empty_header :
  ¬ users_claim registered (at_time 2000) (bearer_request (Some (Opaque ""))).
Proof.
  unfold users_claim. cbv zeta. cbn [bearer_request authorization jwt_decode].
  assert (status_code
            (handle Users (at_time 2000) (bearer_request (Some (Opaque ""))) registered).1
          = 401%nat) as -> by by vm_compute.
  discriminate.
Qed.

(** C3 as stated fails: a registration whose first answer is the integer
    2^63 names an email that no record has, and yet nothing is inserted:
    the driver cannot encode the document and the answer is a 500. *)
Lemma register_oversized_answer :
  ¬ register_claim fresh (at_time 1000) (json_request dave).
Proof.
  unfold register_claim. intros H.
  specialize (H dave (VStr "dave@example.org") eq_refl eq_refl).
  cbv zeta in H. cbn [fresh users Collection.find_one find] in H.
  destruct H as [H _].
  assert ((handle Register (at_time 1000) (json_request dave) fresh).1
          = InternalServerError OverflowError) as Hrun by by vm_compute.
  rewrite Hrun in H. discriminate H.
Qed.


(** C4 as stated fails: Carol registered the answers [1] and [false]; a
    reset that supplies [true] and [0], which are not the stored answers,
    is not answered 401 but replaces her password. *)
Lemma reset_with_other_answers :
  ¬ forgot_password_claim
      (handle Register (at_time 1000) (json_request carol) fresh).2
      (at_time 1500) (json_request carol_reset).
Proof.
  unfold forgot_password_claim. intros H.
  specialize (H carol_reset eq_refl). cbv zeta in H.
  assert (Collection.find_one "email"
            (default VNone (carol_reset !! "email"))
            (users (handle Register (at_time 1000) (json_request carol) fresh).2)
          = Some {| _id := 0;
                    fields := new_user (at_time 1000) (VStr "Carol")
                                (VStr "carol@example.org") (VInt 1) (VBool false)
                                "salt$tr0ub4dor" |}) as Hfound by by vm_compute.
  rewrite Hfound in H. cbn [fields] in H.
  assert (bool_decide
            (new_user (at_time 1000) (VStr "Carol") (VStr "carol@example.org")
               (VInt 1) (VBool false) "salt$tr0ub4dor" !! "q1"
             = Some (default VNone (carol_reset !! "q1")) ∧
             new_user (at_time 1000) (VStr "Carol") (VStr "carol@example.org")
               (VInt 1) (VBool false) "salt$tr0ub4dor" !! "q2"
             = Some (default VNone (carol_reset !! "q2"))) = false) as Hdiffer
    by by vm_compute.
  rewrite Hdiffer in H. destruct H as [H _].
  assert (status_code
            (handle ForgotPassword (at_time 1500) (json_request carol_reset)
               (handle Register (at_time 1000) (json_request carol) fresh).2).1
          = 200%nat) as Hrun by by vm_compute.
  rewrite Hrun in H. discriminate H.
Qed.


(** The token Alice gets at time 2000 opens [/users] one second before
    it expires. *)
Lemma login_token_lifetime_witness :
  ∃ token,
    field (handle Login (at_time 2000) (json_request alice) registered).1 "token"
      = Some (PToken token) ∧
    status_code
      (handle Users (at_time 9199) (bearer_request (Some token)) registered).1
      = 200%nat.
Proof.
  assert (field (handle Login (at_time 2000) (json_request alice) registered).1 "token"
          = Some (PToken (Jws {| userId := ObjectId.str 0; name := VStr "Alice";
                                 exp := 9200 |} "s3cret"))) as Hissued
    by by vm_compute.
  destruct (login_token_lifetime registered (at_time 2000) (json_request alice) _
              Hissued)
    as (data & email & user & uname & _ & _ & _ & _ & Htok & _ & _ & Hany & _).
  eexists. split; [exact Hissued|].
  apply Hany; [reflexivity| |simpl; lia].
  exact (f_equal (λ o, match o with PToken t => Some t | _ => None end) Htok).
Defined.



(** [/register] with an email and nothing else is a 500. *)
Lemma missing_fields_not_validated_witness :
  status_code
    (handle Register (at_time 0)
       (json_request {[ "email" := VStr "bob@example.org" ]}) fresh).1 = 500%nat.
Proof.
  destruct (missing_fields_not_validated fresh (at_time 0))
    as (_ & _ & _ & _ & _ & H & _).
  unfold json_request. by rewrite H.
Defined.

(** Two uploads of the same bytes, a registration apart, get one label. *)
Lemma predict_argmax_deterministic_witness :
  ∃ label,
    label ∈ classes ∧
    field (handle Predict (at_time 0) (upload_request "a.png" "leaf") fresh).1
      "result" = Some (PVal (VStr label)) ∧
    field (handle Predict (at_time 5000) (upload_request "b.JPG" "leaf") registered).1
      "result" = Some (PVal (VStr label)).
Proof.
  destruct (predict_argmax_deterministic fresh) as (_ & _ & H).
  apply (H [(Register, at_time 1000, json_request alice)] (at_time 0) (at_time 5000)
           (upload_request "a.png" "leaf") (upload_request "b.JPG" "leaf")
           {| filename := "a.png"; stream := "leaf" |}
           {| filename := "b.JPG"; stream := "leaf" |} "leaf");
    [apply sample_shape|apply sample_upload_file|apply sample_upload_file
    |by vm_compute|by vm_compute|reflexivity|reflexivity].
Defined.

(** [README] is refused, [leaf.PNG] fits the rule. *)
Lemma allowed_file_last_extension_witness :
  allowed_file "README" = false ∧ accepted_by_rule "leaf.PNG".
Proof.
  destruct allowed_file_last_extension as (Hiff & Hnodot & Hpng & _).
  split; [by apply Hnodot|]. by apply Hiff.
Defined.

(** A valid token behind a "Bearer " prefix is a 403. *)
Lemma get_users_responses_witness :
  status_code
    (handle Users (at_time 2000)
       (bearer_request
          (Some (Bearer (Jws {| userId := "0"; name := VStr "Alice"; exp := 9200 |}
                           "s3cret"))))
       registered).1 = 403%nat.
Proof.
  pose proof (get_users_responses registered (at_time 2000)
    (bearer_request
       (Some (Bearer (Jws {| userId := "0"; name := VStr "Alice"; exp := 9200 |}
                        "s3cret"))))) as H.
  cbv zeta in H. cbn [bearer_request authorization token_truthy] in H.
  exact (proj2 H _ eq_refl).
Defined.

(** A valid token lists the collection. *)
Lemma users_listing_exposes_witness :
  status_code
    (handle Users (at_time 2000)
       (bearer_request
          (Some (Jws {| userId := "0"; name := VStr "Alice"; exp := 9200 |} "s3cret")))
       registered).1 = 200%nat.
Proof.
  refine (proj1 (users_listing_exposes registered (at_time 2000)
    (bearer_request
       (Some (Jws {| userId := "0"; name := VStr "Alice"; exp := 9200 |} "s3cret")))
    _ {| userId := "0"; name := VStr "Alice"; exp := 9200 |} eq_refl _)).
  reflexivity.
Defined.

(** ** The further properties on sample requests *)

(** An undecodable [leaf.png] is still on disk after the request. *)
Lemma predict_saves_upload_witness :
  uploads (handle Predict (at_time 0) (upload_request "leaf.png" "") fresh).2
    !! "static/uploads/leaf.png" = Some "".
Proof.
  refine (proj1 (predict_saves_upload fresh (at_time 0)
                   (upload_request "leaf.png" "")
                   {| filename := "leaf.png"; stream := "" |} _ _)).
  - apply sample_upload_file.
  - by vm_compute.
Defined.

(** A refused [notes.txt] leaves the state as it was. *)
Lemma predict_keeps_collection_witness :
  (handle Predict (at_time 0) (upload_request "notes.txt" "hello") fresh).2 = fresh.
Proof.
  apply (predict_keeps_collection (at_time 0) (upload_request "notes.txt" "hello") fresh).
  by vm_compute.
Defined.

(** An uploaded file survives a later registration. *)
Lemma uploads_only_grow_witness :
  is_Some
    (uploads
       (serve [(Register, at_time 1000, json_request alice)]
          (handle Predict (at_time 0) (upload_request "leaf.png" "PNG-bytes") fresh).2)
     !! "static/uploads/leaf.png").
Proof.
  apply (proj2 (uploads_only_grow _)).
  exists "PNG-bytes". by vm_compute.
Defined.

(** After Alice registers, her record sits at index 0 and nowhere else. *)
Lemma emails_identify_records_witness :
  users (serve [(Register, at_time 1000, json_request alice)] fresh) !! 0%nat
    = Some {| _id := 0;
              fields := new_user (at_time 1000) (VStr "Alice")
                          (VStr "alice@example.org") (VStr "blue") (VStr "rex")
                          "salt$hunter2" |} ∧
  0%nat = 0%nat.
Proof.
  assert (users (serve [(Register, at_time 1000, json_request alice)] fresh) !! 0%nat
          = Some {| _id := 0;
                    fields := new_user (at_time 1000) (VStr "Alice")
                                (VStr "alice@example.org") (VStr "blue") (VStr "rex")
                                "salt$hunter2" |}) as Hd.
  { change (serve [(Register, at_time 1000, json_request alice)] fresh)
      with registered.
    by rewrite sample_registered_users. }
  split; [exact Hd|].
  exact (emails_identify_records [(Register, at_time 1000, json_request alice)]
           fresh eq_refl 0%nat 0%nat _ _ Hd Hd (or_introl eq_refl)).
Defined.

(** Alice registers and logs in; a second registration is refused. *)
Lemma register_then_login_witness :
  status_code (handle Login (at_time 2000) (json_request alice) registered).1
    = 200%nat ∧
  status_code (handle Register (at_time 2000) (json_request alice) registered).1
    = 400%nat.
Proof.
  apply (register_then_login fresh (at_time 1000) (at_time 2000)
           (json_request alice) alice "hunter2");
    [reflexivity|reflexivity|by vm_compute|].
  intros hashed [= <-]. reflexivity.
Defined.

(** Alice resets her password and logs in with the new one. *)
Lemma reset_then_login_witness :
  status_code
    (handle Login (at_time 2000) (json_request new_login)
       (handle ForgotPassword (at_time 1500) (json_request recover) registered).2).1
    = 200%nat.
Proof.
  refine (proj1 (reset_then_login registered (at_time 1500) (at_time 2000)
                   (json_request recover) (json_request new_login)
                   recover new_login "correct horse" _ (VStr "Alice")
                   eq_refl _ _ sample_find_alice _ eq_refl _) _ _);
    try (by vm_compute).
  intros hashed [= <-]. reflexivity.
Defined.

(** Alice's registration appends one record. *)
Lemma register_appends_or_nothing_witness :
  ∃ doc,
    users registered = users fresh ++ [{| _id := next_oid fresh; fields := doc |}] ∧
    next_oid registered = N.succ (next_oid fresh) ∧
    dom doc = ({[ "name"; "email"; "password"; "q1"; "q2"; "createdAt" ]}
               : gset string).
Proof.
  apply (register_appends_or_nothing (at_time 1000) (json_request alice) fresh).
  by vm_compute.
Defined.

(** A reset with a wrong answer changes nothing. *)
Lemma forgot_password_keeps_other_fields_witness :
  (handle ForgotPassword (at_time 1500) (json_request wrong_answers) registered).2
    = registered.
Proof.
  apply (forgot_password_keeps_other_fields (at_time 1500)
           (json_request wrong_answers) registered).
  by vm_compute.
Defined.

(** Alice's successful reset matched her record. *)
Lemma forgot_password_requires_answers_witness :
  ∃ data user a1 a2,
    json (json_request recover) = Some data ∧
    Collection.find_one "email" (default VNone (data !! "email")) (users registered)
      = Some user ∧
    fields user !! "q1" = Some a1 ∧
    fields user !! "q2" = Some a2 ∧
    py_eq a1 (default VNone (data !! "q1")) = true ∧
    py_eq a2 (default VNone (data !! "q2")) = true.
Proof.
  apply (forgot_password_requires_answers (at_time 1500) (json_request recover)).
  by vm_compute.
Defined.

(** Alice's deletion removes exactly one record. *)
Lemma delete_requires_password_witness :
  ∃ data email password user hashed,
    json (json_request alice) = Some data ∧
    data !! "email" = Some email ∧
    data !! "password" = Some (VStr password) ∧
    Collection.find_one "email" email (users registered) = Some user ∧
    fields user !! "password" = Some (VBytes hashed) ∧
    checkpw password hashed = Some true ∧
    sublist
      (users (handle DeleteAccount (at_time 2500) (json_request alice) registered).2)
      (users registered) ∧
    length (users registered) =
      S (length (users (handle DeleteAccount (at_time 2500) (json_request alice)
                          registered).2)).
Proof.
  apply (delete_requires_password (at_time 2500) (json_request alice) registered).
  by vm_compute.
Defined.

(** Alice's login verified her password. *)
Lemma login_requires_password_witness :
  ∃ data email password user hashed uname,
    json (json_request alice) = Some data ∧
    data !! "email" = Some email ∧
    data !! "password" = Some (VStr password) ∧
    Collection.find_one "email" email (users registered) = Some user ∧
    fields user !! "password" = Some (VBytes hashed) ∧
    checkpw password hashed = Some true ∧
    fields user !! "name" = Some uname ∧
    field (handle Login (at_time 2000) (json_request alice) registered).1 "name"
      = Some (PVal uname).
Proof.
  apply (login_requires_password (at_time 2000) (json_request alice) registered).
  by vm_compute.
Defined.

(** A path prefix and a double extension do not change the verdict. *)
Lemma allowed_file_ignores_stem_and_case_witness :
  allowed_file ("../../etc/x.exe" +:+ "." +:+ "PNG") = allowed_file ("leaf" +:+ "." +:+ "PNG").
Proof.
  apply (proj1 allowed_file_ignores_stem_and_case). reflexivity.
Defined.

(** A registration keeps the records that were there. *)
Lemma accounts_removed_only_by_delete_witness :
  map _id (users registered) `prefix_of`
  map _id (users (handle Register (at_time 3000)
                    (json_request {[ "email" := VStr "bob@example.org" ]})
                    registered).2).
Proof.
  apply accounts_removed_only_by_delete. intros [Hr _]. discriminate Hr.
Defined.

(** The sample network's label comes from the table. *)
Lemma predict_result_always_from_table_witness :
  labelled (handle Predict (at_time 0) (upload_request "leaf.png" "PNG-bytes") fresh).1.
Proof.
  refine (proj1 (predict_result_always_from_table (at_time 0)
                   (upload_request "leaf.png" "PNG-bytes") fresh
                   (PVal (VStr "Tomato_Early_Blight")) _)).
  by vm_compute.
Defined.
